(** * hydrogen-wishlist: reconciliation, storage and provider

    A shallow embedding of [src/utils/merge.ts], [src/utils/validation.ts],
    [src/utils/storage.ts] and of the state logic of
    [src/components/WishlistProvider.tsx], with the properties of the
    specification stated and proved (or refuted) over it. *)

From Stdlib Require Import List String Ascii Bool ZArith QArith Lia Lqa Permutation Sorted.
Import ListNotations.
Local Close Scope Q_scope.
Local Open Scope string_scope.
Local Open Scope list_scope.

Set Implicit Arguments.
Local Set Warnings "-register-all".

(** ** The JavaScript values the code computes with *)

(** A JavaScript number, as far as the comparators of [merge.ts] look at
    it: not-a-number, the two infinities, or a finite value.  A finite
    double is kept as the rational it denotes; [Array.prototype.sort] only
    consumes the sign of a comparator's result, and the sign of an IEEE
    difference of two finite doubles is the sign of their comparison. *)
Inductive JSNumber : Type :=
| NaN
| NegInfinity
| Finite (q : Q)
| Infinity.

(** [a - b] on numbers. *)
Definition num_sub (a b : JSNumber) : JSNumber :=
  match a, b with
  | NaN, _ => NaN
  | _, NaN => NaN
  | Infinity, Infinity => NaN
  | NegInfinity, NegInfinity => NaN
  | Infinity, _ => Infinity
  | NegInfinity, _ => NegInfinity
  | Finite _, Infinity => NegInfinity
  | Finite _, NegInfinity => Infinity
  | Finite x, Finite y => Finite (x - y)%Q
  end.

(** [n > 0]; false on [NaN]. *)
Definition num_pos (n : JSNumber) : bool :=
  match n with
  | Infinity => true
  | Finite q => negb (Qle_bool q 0%Q)
  | _ => false
  end.

(** A [Date] object is its time value in milliseconds, or [None] for an
    invalid date. *)
Definition Date : Type := option Z.

(** [d.getTime()]. *)
Definition getTime (d : Date) : JSNumber :=
  match d with
  | Some t => Finite (inject_Z t)
  | None => NaN
  end.

(** [a < b] on two dates: both are converted to numbers, and a comparison
    with [NaN] is false. *)
Definition date_lt (a b : Date) : bool :=
  match a, b with
  | Some x, Some y => (x <? y)%Z
  | _, _ => false
  end.

(** The built-ins of the host that the code calls and whose result depends
    on the engine: [new Date(string)] and the global [parseFloat]. *)
Class Runtime : Type := {
  newDate : string -> Date;
  parseFloat : string -> JSNumber
}.

(** An optional property of an object.  Object spread copies own
    properties, whether their value is [undefined] or not, so a property
    that is missing and one that is present with the value [undefined] are
    kept apart; reading either gives [undefined]. *)
Inductive Optional (A : Type) : Type :=
| Absent
| Undefined
| Present (a : A).
Arguments Absent {A}.
Arguments Undefined {A}.
Arguments Present {A} a.

(** Reading [o.f]: [None] is [undefined]. *)
Definition read {A} (o : Optional A) : option A :=
  match o with
  | Present a => Some a
  | _ => None
  end.

(** A property written in an object literal, [{ f: v }]: always an own
    property. *)
Definition own {A} (v : option A) : Optional A :=
  match v with
  | Some a => Present a
  | None => Undefined
  end.

(** One property of [{ ...base, ...top }]. *)
Definition over {A} (base top : Optional A) : Optional A :=
  match top with
  | Absent => base
  | _ => top
  end.

(** [v ?? d] *)
Definition nullish {A} (v : option A) (d : A) : A :=
  match v with
  | Some a => a
  | None => d
  end.
Infix "??" := nullish (at level 45, left associativity).

(** [a === b] on two values of type [string | undefined]. *)
Definition strict_eq (a b : option string) : bool :=
  match a, b with
  | Some x, Some y => String.eqb x y
  | None, None => true
  | _, _ => false
  end.

(** ** types.ts *)

Record Image : Type := {
  url : string;
  altText : Optional string
}.

Record Price : Type := {
  amount : string;
  currencyCode : string
}.

(** [WishlistItem]; [variantTitle] is [string | null], with [None] for
    [null]. *)
Record WishlistItem : Type := {
  productId : string;
  variantId : Optional string;
  productTitle : string;
  productHandle : Optional string;
  variantTitle : Optional (option string);
  image : Optional Image;
  price : Optional Price;
  addedAt : string
}.

(** [ProductInfo] *)
Record ProductInfo : Type := {
  id : string;
  title : string;
  handle : Optional string;
  pVariantId : Optional string;
  pVariantTitle : Optional (option string);
  pImage : Optional Image;
  pPrice : Optional Price
}.

(** ** The built-in containers *)

(** A [Map<string, V>]: the entries in insertion order, one per key. *)
Definition JSMap (V : Type) : Type := list (string * V).

Fixpoint Map_get {V} (k : string) (m : JSMap V) : option V :=
  match m with
  | [] => None
  | (k', v) :: m' => if String.eqb k k' then Some v else Map_get k m'
  end.

(** [m.set(k, v)]: a present key keeps its place, a new key goes last. *)
Fixpoint Map_set {V} (k : string) (v : V) (m : JSMap V) : JSMap V :=
  match m with
  | [] => [(k, v)]
  | (k', v') :: m' =>
      if String.eqb k k' then (k, v) :: m' else (k', v') :: Map_set k v m'
  end.

Definition Map_keys {V} (m : JSMap V) : list string := map fst m.
Definition Map_values {V} (m : JSMap V) : list V := map snd m.

(** [Array.prototype.sort(comparefn)].  The sort is stable, and [x] goes
    behind [y] exactly when [comparefn(x, y) > 0] (a [NaN] result counts
    as [0]).  For a consistent comparator every stable sort returns the
    list below.  For an inconsistent one, as a comparator that returns
    [NaN] for some pairs is, the order is left to the engine, which may
    return another order than the list below: the statements about an
    order keep the comparator consistent. *)
Fixpoint sort_insert {A} (cmp : A -> A -> JSNumber) (x : A) (l : list A) : list A :=
  match l with
  | [] => [x]
  | y :: l' => if num_pos (cmp x y) then y :: sort_insert cmp x l' else x :: l
  end.

Definition Array_sort {A} (cmp : A -> A -> JSNumber) (l : list A) : list A :=
  fold_right (sort_insert cmp) [] l.

(** ** utils/merge.ts *)

Section Merge.
Context {rt : Runtime}.

(** [`${item.productId}:${item.variantId ?? 'default'}`] *)
Definition createItemKey (item : WishlistItem) : string :=
  productId item ++ ":" ++ (read (variantId item) ?? "default").

(** [{ ...existing, ...item, addedAt: item.addedAt }]; the required
    properties are own properties of [item]. *)
Definition spreadItems (existing item : WishlistItem) : WishlistItem :=
  {| productId := productId item;
     variantId := over (variantId existing) (variantId item);
     productTitle := productTitle item;
     productHandle := over (productHandle existing) (productHandle item);
     variantTitle := over (variantTitle existing) (variantTitle item);
     image := over (image existing) (image item);
     price := over (price existing) (price item);
     addedAt := addedAt item |}.

(** The first loop of [mergeWishlists]. *)
Definition setCustomerItem (merged : JSMap WishlistItem) (item : WishlistItem)
  : JSMap WishlistItem :=
  Map_set (createItemKey item) item merged.

(** The body of the second loop. *)
Definition mergeGuestItem (merged : JSMap WishlistItem) (item : WishlistItem)
  : JSMap WishlistItem :=
  let key := createItemKey item in
  match Map_get key merged with
  | None => Map_set key item merged
  | Some existing =>
      let existingDate := newDate (addedAt existing) in
      let newD := newDate (addedAt item) in
      if date_lt newD existingDate
      then Map_set key (spreadItems existing item) merged
      else merged
  end.

(** The map [merged] when both loops are done. *)
Definition mergedMap (guestItems customerItems : list WishlistItem)
  : JSMap WishlistItem :=
  fold_left mergeGuestItem guestItems
    (fold_left setCustomerItem customerItems []).

(** The comparator of the newest-first sorts. *)
Definition newestFirst (a b : WishlistItem) : JSNumber :=
  num_sub (getTime (newDate (addedAt b))) (getTime (newDate (addedAt a))).

Definition mergeWishlists (guestItems customerItems : list WishlistItem)
  : list WishlistItem :=
  Array_sort newestFirst (Map_values (mergedMap guestItems customerItems)).

(** [seen] is a [Set<string>], kept as the list of its members. *)
Fixpoint deduplicateLoop (seen : list string) (items : list WishlistItem)
  : list WishlistItem :=
  match items with
  | [] => []
  | item :: rest =>
      let key := createItemKey item in
      if existsb (String.eqb key) seen
      then deduplicateLoop seen rest
      else item :: deduplicateLoop (key :: seen) rest
  end.

Definition deduplicateItems (items : list WishlistItem) : list WishlistItem :=
  deduplicateLoop [] items.

Definition priceLowToHigh (a b : WishlistItem) : JSNumber :=
  let priceA := match read (price a) with
                | Some p => parseFloat (amount p) | None => Infinity end in
  let priceB := match read (price b) with
                | Some p => parseFloat (amount p) | None => Infinity end in
  num_sub priceA priceB.

Definition sortByPriceLowToHigh (items : list WishlistItem) : list WishlistItem :=
  Array_sort priceLowToHigh items.

Definition priceHighToLow (a b : WishlistItem) : JSNumber :=
  let priceA := match read (price a) with
                | Some p => parseFloat (amount p) | None => Finite 0%Q end in
  let priceB := match read (price b) with
                | Some p => parseFloat (amount p) | None => Finite 0%Q end in
  num_sub priceB priceA.

Definition sortByPriceHighToLow (items : list WishlistItem) : list WishlistItem :=
  Array_sort priceHighToLow items.

End Merge.

(** ** A reference runtime

    The theorems below hold for every [Runtime].  The examples are
    evaluated on this one: dates in three shapes of the ECMAScript
    date-time string format ([YYYY-MM-DD], [YYYY-MM-DDTHH:mm:ssZ],
    [YYYY-MM-DDTHH:mm:ss.sssZ]), and [parseFloat] on the decimal literal
    that starts the string, rounded to the nearest double.  Every other
    string is an invalid date to this runtime, also those that an engine
    reads (a UTC offset, hour 24, no seconds, a shorter fraction): the
    examples keep to the three shapes. *)
Module Reference.

Definition digit (c : ascii) : option Z :=
  let n := Z.of_N (N_of_ascii c) in
  if ((48 <=? n) && (n <=? 57))%Z then Some (n - 48)%Z else None.

(** The number written by a run of digits, [None] when a character is
    not a digit. *)
Fixpoint digits_from (acc : Z) (cs : list ascii) : option Z :=
  match cs with
  | [] => Some acc
  | c :: cs' =>
      match digit c with
      | Some d => digits_from (10 * acc + d)%Z cs'
      | None => None
      end
  end.

Definition number (cs : list ascii) : option Z :=
  match cs with
  | [] => None
  | _ => digits_from 0%Z cs
  end.

Definition isLeap (y : Z) : bool :=
  ((y mod 4 =? 0) && (negb (y mod 100 =? 0) || (y mod 400 =? 0)))%Z.

Definition daysInMonth (y m : Z) : Z :=
  (if m =? 2 then (if isLeap y then 29 else 28)
   else if (m =? 4) || (m =? 6) || (m =? 9) || (m =? 11) then 30
   else 31)%Z.

(** Days from 1970-01-01 to the civil date [y]-[m]-[d]. *)
Definition daysFromCivil (y m d : Z) : Z :=
  (let y' := if m <=? 2 then y - 1 else y in
   let era := y' / 400 in
   let yoe := y' - era * 400 in
   let mp := (m + 9) mod 12 in
   let doy := (153 * mp + 2) / 5 + d - 1 in
   let doe := yoe * 365 + yoe / 4 - yoe / 100 + doy in
   era * 146097 + doe - 719468)%Z.

Definition makeTime (y m d hh mm ss ms : Z) : Date :=
  (if (1 <=? m) && (m <=? 12) && (1 <=? d) && (d <=? daysInMonth y m)
      && (hh <=? 23) && (mm <=? 59) && (ss <=? 59)
   then Some (((daysFromCivil y m d * 24 + hh) * 60 + mm) * 60000
              + ss * 1000 + ms)
   else None)%Z.

Definition opt7 (y m d hh mm ss ms : option Z) : Date :=
  match y, m, d, hh, mm, ss, ms with
  | Some y, Some m, Some d, Some hh, Some mm, Some ss, Some ms =>
      makeTime y m d hh mm ss ms
  | _, _, _, _, _, _, _ => None
  end.

Definition dateOf (s : string) : Date :=
  match list_ascii_of_string s with
  | [y1; y2; y3; y4; "-"; m1; m2; "-"; d1; d2]%char =>
      opt7 (number [y1; y2; y3; y4]) (number [m1; m2]) (number [d1; d2])
           (Some 0%Z) (Some 0%Z) (Some 0%Z) (Some 0%Z)
  | [y1; y2; y3; y4; "-"; m1; m2; "-"; d1; d2; "T";
     h1; h2; ":"; i1; i2; ":"; s1; s2; "Z"]%char =>
      opt7 (number [y1; y2; y3; y4]) (number [m1; m2]) (number [d1; d2])
           (number [h1; h2]) (number [i1; i2]) (number [s1; s2]) (Some 0%Z)
  | [y1; y2; y3; y4; "-"; m1; m2; "-"; d1; d2; "T";
     h1; h2; ":"; i1; i2; ":"; s1; s2; "."; f1; f2; f3; "Z"]%char =>
      opt7 (number [y1; y2; y3; y4]) (number [m1; m2]) (number [d1; d2])
           (number [h1; h2]) (number [i1; i2]) (number [s1; s2])
           (number [f1; f2; f3])
  | _ => None
  end.

(** Round-half-even of the positive fraction [n / d]. *)
Definition roundHalfEven (n d : Z) : Z :=
  (let q := n / d in
   let r := n mod d in
   match 2 * r ?= d with
   | Lt => q
   | Gt => q + 1
   | Eq => if Z.even q then q else q + 1
   end)%Z.

(** The double nearest to the positive rational [n / d]: 53 significant
    bits, exponents from -1074, overflow to infinity. *)
Definition nearestDouble (n d : Z) : JSNumber :=
  (let e0 := Z.log2 n - Z.log2 d in
   let e := if e0 <? 0
            then (if n * 2 ^ (- e0) <? d then e0 - 1 else e0)
            else (if n <? d * 2 ^ e0 then e0 - 1 else e0) in
   let p := Z.max (e - 52) (-1074) in
   let r := if p <? 0 then roundHalfEven (n * 2 ^ (- p)) d
            else roundHalfEven n (d * 2 ^ p) in
   if p <? 0
   then Finite (Qmake r (Z.to_pos (2 ^ (- p))))
   else if 2 ^ 1024 <=? r * 2 ^ p then Infinity
        else Finite (inject_Z (r * 2 ^ p)))%Z.

Definition isSpace (c : ascii) : bool :=
  let n := N_of_ascii c in
  ((n =? 32) || ((9 <=? n) && (n <=? 13)))%N.

Fixpoint skipSpaces (cs : list ascii) : list ascii :=
  match cs with
  | c :: cs' => if isSpace c then skipSpaces cs' else cs
  | [] => []
  end.

(** The leading run of digits of [cs]: its value, its length, the rest. *)
Fixpoint leadingDigits (acc : Z) (len : Z) (cs : list ascii)
  : Z * Z * list ascii :=
  match cs with
  | c :: cs' =>
      match digit c with
      | Some d => leadingDigits (10 * acc + d)%Z (len + 1)%Z cs'
      | None => (acc, len, cs)
      end
  | [] => (acc, len, [])
  end.

(** The exponent part [e[+-]digits], 0 when there is none. *)
Definition exponentOf (cs : list ascii) : Z :=
  match cs with
  | ("e" | "E")%char :: cs' =>
      let '(neg, ds) := match cs' with
                        | "-"%char :: r => (true, r)
                        | "+"%char :: r => (false, r)
                        | _ => (false, cs')
                        end in
      let '(v, len, _) := leadingDigits 0%Z 0%Z ds in
      if (len =? 0)%Z then 0%Z else if neg then (- v)%Z else v
  | _ => 0%Z
  end.

Definition startsWithInfinity (cs : list ascii) : bool :=
  match cs with
  | ("I" :: "n" :: "f" :: "i" :: "n" :: "i" :: "t" :: "y" :: _)%char => true
  | _ => false
  end.

(** The unsigned literal at the head of [cs]. *)
Definition unsignedLiteral (cs : list ascii) : JSNumber :=
  if startsWithInfinity cs then Infinity
  else
    let '(ip, ilen, rest) := leadingDigits 0%Z 0%Z cs in
    let '(m, flen, rest') :=
      match rest with
      | "."%char :: fs => leadingDigits ip 0%Z fs
      | _ => (ip, 0%Z, rest)
      end in
    if ((ilen =? 0) && (flen =? 0))%Z then NaN
    else
      let ex := (exponentOf rest' - flen)%Z in
      if (m =? 0)%Z then Finite 0%Q
      else if (ex <? 0)%Z then nearestDouble m (10 ^ (- ex))%Z
           else nearestDouble (m * 10 ^ ex)%Z 1%Z.

Definition negate (n : JSNumber) : JSNumber :=
  match n with
  | NaN => NaN
  | Infinity => NegInfinity
  | NegInfinity => Infinity
  | Finite q => Finite (- q)%Q
  end.

Definition floatOf (s : string) : JSNumber :=
  match skipSpaces (list_ascii_of_string s) with
  | "-"%char :: cs => negate (unsignedLiteral cs)
  | "+"%char :: cs => unsignedLiteral cs
  | cs => unsignedLiteral cs
  end.

#[export] Instance runtime : Runtime :=
  {| newDate := dateOf; parseFloat := floatOf |}.

End Reference.
Export Reference.

(** ** utils/constants.ts *)

Module DEFAULT_ERROR_MESSAGES.
Definition notConfigured : string := "WishlistProvider is not configured.".
Definition network : string := "Network error. Please try again.".
Definition rateLimited : string := "Too many requests. Please try again later.".
Definition syncFailed : string := "Failed to sync wishlist. Please try again.".
Definition unknown : string := "An unexpected error occurred.".
End DEFAULT_ERROR_MESSAGES.

(** ** utils/validation.ts *)

(** What [JSON.parse] returns. *)
Inductive JSON : Type :=
| JNull
| JBool (b : bool)
| JNumber (q : Q)
| JString (s : string)
| JArray (elements : list JSON)
| JObject (props : list (string * JSON)).

Fixpoint assoc {V} (k : string) (l : list (string * V)) : option V :=
  match l with
  | [] => None
  | (k', v) :: l' => if String.eqb k k' then Some v else assoc k l'
  end.

(** [obj[name]] for a property name that is neither an index nor
    [length]; [None] is [undefined]. *)
Definition prop (name : string) (obj : JSON) : option JSON :=
  match obj with
  | JObject props => assoc name props
  | _ => None
  end.

Inductive TypeTag : Type :=
| TUndefined | TObject | TBoolean | TNumber | TString.

Definition typeof (v : option JSON) : TypeTag :=
  match v with
  | None => TUndefined
  | Some JNull => TObject
  | Some (JBool _) => TBoolean
  | Some (JNumber _) => TNumber
  | Some (JString _) => TString
  | Some (JArray _) => TObject
  | Some (JObject _) => TObject
  end.

Definition isTag (a b : TypeTag) : bool :=
  match a, b with
  | TUndefined, TUndefined | TObject, TObject | TBoolean, TBoolean
  | TNumber, TNumber | TString, TString => true
  | _, _ => false
  end.

(** [!v] *)
Definition falsy (v : option JSON) : bool :=
  match v with
  | None => true
  | Some JNull => true
  | Some (JBool b) => negb b
  | Some (JNumber q) => Qeq_bool q 0%Q
  | Some (JString s) => String.eqb s ""
  | Some (JArray _) => false
  | Some (JObject _) => false
  end.

Definition isValidWishlistItem (item : JSON) : bool :=
  if falsy (Some item) || negb (isTag (typeof (Some item)) TObject) then false
  else
    let obj := item in
    if falsy (prop "productId" obj)
       || negb (isTag (typeof (prop "productId" obj)) TString) then false
    else if falsy (prop "productTitle" obj)
            || negb (isTag (typeof (prop "productTitle" obj)) TString) then false
    else if falsy (prop "addedAt" obj)
            || negb (isTag (typeof (prop "addedAt" obj)) TString) then false
    else true.

(** ** utils/storage.ts *)

(** The text under a key of [localStorage], given by what [JSON.parse]
    makes of it. *)
Inductive StoredText : Type :=
| EmptyText
| Malformed
| Text (value : JSON).

(** [window.localStorage] as the adapter sees it: whether
    [isStorageAvailable()] holds, whether [getItem] and [setItem] throw,
    and the two keys of [STORAGE_KEYS]. *)
Record LocalStorage : Type := {
  available : bool;
  getItemThrows : bool;
  setItemThrows : bool;
  wishlistItems : option StoredText;
  lastSyncTimestamp : option string
}.

Definition isStorageAvailable (ls : LocalStorage) : bool := available ls.

(** The result is [parsed.filter(isValidWishlistItem)]; the cast to
    [WishlistItem[]] does nothing at run time. *)
Definition getStoredItems (ls : LocalStorage) : list JSON :=
  if negb (isStorageAvailable ls) then []
  else if getItemThrows ls then []
  else match wishlistItems ls with
       | None => []
       | Some EmptyText => []
       | Some Malformed => []
       | Some (Text parsed) =>
           match parsed with
           | JArray elements => filter isValidWishlistItem elements
           | _ => []
           end
       end.

(** [items] are given as [JSON.stringify] writes them. *)
Definition setStoredItems (items : list JSON) (ls : LocalStorage) : LocalStorage :=
  if negb (isStorageAvailable ls) then ls
  else if setItemThrows ls then ls
  else {| available := available ls;
          getItemThrows := getItemThrows ls;
          setItemThrows := setItemThrows ls;
          wishlistItems := Some (Text (JArray items));
          lastSyncTimestamp := lastSyncTimestamp ls |}.

Definition clearStoredItems (ls : LocalStorage) : LocalStorage :=
  if negb (isStorageAvailable ls) then ls
  else {| available := available ls;
          getItemThrows := getItemThrows ls;
          setItemThrows := setItemThrows ls;
          wishlistItems := None;
          lastSyncTimestamp := None |}.

(** What [JSON.stringify] keeps of an optional property. *)
Definition optProp {A} (name : string) (enc : A -> JSON) (o : Optional A)
  : list (string * JSON) :=
  match o with
  | Present a => [(name, enc a)]
  | _ => []
  end.

Definition imageJSON (i : Image) : JSON :=
  JObject (("url", JString (url i)) :: optProp "altText" JString (altText i)).

Definition priceJSON (p : Price) : JSON :=
  JObject [("amount", JString (amount p));
           ("currencyCode", JString (currencyCode p))].

Definition nullable (v : option string) : JSON :=
  match v with
  | Some s => JString s
  | None => JNull
  end.

(** A [WishlistItem] as it is written to the store. *)
Definition itemJSON (item : WishlistItem) : JSON :=
  JObject (("productId", JString (productId item))
           :: optProp "variantId" JString (variantId item)
           ++ ("productTitle", JString (productTitle item))
           :: optProp "productHandle" JString (productHandle item)
           ++ optProp "variantTitle" nullable (variantTitle item)
           ++ optProp "image" imageJSON (image item)
           ++ optProp "price" priceJSON (price item)
           ++ [("addedAt", JString (addedAt item))]).

(** [v === s] for a stored property [v] and [s : string | undefined]. *)
Definition stored_eq (v : option JSON) (s : option string) : bool :=
  match v, s with
  | Some (JString a), Some b => String.eqb a b
  | None, None => true
  | _, _ => false
  end.

Definition storedMatches (pid : string) (vid : option string) (existing : JSON) : bool :=
  stored_eq (prop "productId" existing) (Some pid)
  && stored_eq (prop "variantId" existing) vid.

Definition addStoredItem (item : WishlistItem) (ls : LocalStorage)
  : list JSON * LocalStorage :=
  let items := getStoredItems ls in
  let exists_ :=
    existsb (storedMatches (productId item) (read (variantId item))) items in
  if exists_ then (items, ls)
  else
    let newItems := items ++ [itemJSON item] in
    (newItems, setStoredItems newItems ls).

Definition removeStoredItem (pid : string) (vid : option string) (ls : LocalStorage)
  : list JSON * LocalStorage :=
  let items := getStoredItems ls in
  let newItems := filter (fun item => negb (storedMatches pid vid item)) items in
  (newItems, setStoredItems newItems ls).

Definition isItemStored (pid : string) (vid : option string) (ls : LocalStorage) : bool :=
  existsb (storedMatches pid vid) (getStoredItems ls).

(** ** components/WishlistProvider.tsx *)

Record WishBridgeConfig : Type := {
  apiUrl : string;
  apiKey : option string;
  shopDomain : string;
  customerId : option string;
  customerAccessToken : option string;
  enableGuestWishlist : option bool;
  enableAutoMerge : option bool
}.

(** The four [useState] cells of the provider. *)
Record WishlistState : Type := {
  items : list WishlistItem;
  isLoading : bool;
  isSyncing : bool;
  error : option string
}.

(** The state of a provider that has just been mounted. *)
Definition initialState : WishlistState :=
  {| items := []; isLoading := true; isSyncing := false; error := None |}.

Definition setItems (f : list WishlistItem -> list WishlistItem) (s : WishlistState)
  : WishlistState :=
  {| items := f (items s); isLoading := isLoading s;
     isSyncing := isSyncing s; error := error s |}.

Definition setIsLoading (b : bool) (s : WishlistState) : WishlistState :=
  {| items := items s; isLoading := b; isSyncing := isSyncing s; error := error s |}.

Definition setIsSyncing (b : bool) (s : WishlistState) : WishlistState :=
  {| items := items s; isLoading := isLoading s; isSyncing := b; error := error s |}.

Definition setError (e : option string) (s : WishlistState) : WishlistState :=
  {| items := items s; isLoading := isLoading s; isSyncing := isSyncing s; error := e |}.

(** [SyncWishlistResponse] and [UpdateWishlistResponse] have the same
    fields. *)
Record WishlistResponse : Type := {
  success : bool;
  rItems : option (list WishlistItem);
  message : option string;
  rError : option string
}.

(** What the one [fetch] of an operation comes to: the promise rejects,
    or there is a response with a status whose [json()] gives a body or
    rejects ([None]). *)
Inductive Fetched : Type :=
| Rejected
| Responded (status : Z) (body : option WishlistResponse).

(** [res.ok] *)
Definition ok (status : Z) : bool := ((200 <=? status) && (status <=? 299))%Z.

(** A string (or [undefined]) used as a condition. *)
Definition given (s : option string) : bool :=
  match s with
  | Some s => negb (String.eqb s "")
  | None => false
  end.

(** A stored record read at the type [WishlistItem], which is what the
    cast in [getStoredItems] promises.  On a record of that type the
    reading is exact.  An optional property of another shape (a
    [variantId] that is [null], a [productHandle] that is a number) is
    outside the type: the code keeps it as it was parsed and the reading
    below takes it for missing; no statement rests on how such a property
    is read. *)
Definition asString (v : option JSON) : string :=
  match v with
  | Some (JString s) => s
  | _ => ""
  end.

Definition asOptional {A} (dec : JSON -> option A) (v : option JSON) : Optional A :=
  match v with
  | Some j => match dec j with
              | Some a => Present a
              | None => Absent
              end
  | None => Absent
  end.

Definition decString (j : JSON) : option string :=
  match j with
  | JString s => Some s
  | _ => None
  end.

Definition decNullable (j : JSON) : option (option string) :=
  match j with
  | JString s => Some (Some s)
  | JNull => Some None
  | _ => None
  end.

Definition decImage (j : JSON) : option Image :=
  match prop "url" j with
  | Some (JString u) =>
      Some {| url := u; altText := asOptional decString (prop "altText" j) |}
  | _ => None
  end.

Definition decPrice (j : JSON) : option Price :=
  match prop "amount" j, prop "currencyCode" j with
  | Some (JString a), Some (JString c) => Some {| amount := a; currencyCode := c |}
  | _, _ => None
  end.

Definition asWishlistItem (j : JSON) : WishlistItem :=
  {| productId := asString (prop "productId" j);
     variantId := asOptional decString (prop "variantId" j);
     productTitle := asString (prop "productTitle" j);
     productHandle := asOptional decString (prop "productHandle" j);
     variantTitle := asOptional decNullable (prop "variantTitle" j);
     image := asOptional decImage (prop "image" j);
     price := asOptional decPrice (prop "price" j);
     addedAt := asString (prop "addedAt" j) |}.

Section Provider.
Variable config : WishBridgeConfig.

Definition isGuest : bool := negb (given (customerId config)).
Definition enableGuestWishlist_ : bool := enableGuestWishlist config ?? true.
Definition enableAutoMerge_ : bool := enableAutoMerge config ?? true.

(** The predicate of the [some] and [filter] calls:
    [x.productId === productId && x.variantId === variantId]. *)
Definition matches (pid : string) (vid : option string) (x : WishlistItem) : bool :=
  String.eqb (productId x) pid && strict_eq (read (variantId x)) vid.

(** [syncWishlist(guestItems)], with [fetched] the outcome of its
    request.  [guestItems] only goes into the request body. *)
Definition syncWishlist (fetched : Fetched) (w : WishlistState * LocalStorage)
  : WishlistState * LocalStorage :=
  let '(s, ls) := w in
  if negb (given (customerId config)) || negb (given (apiKey config)) then (s, ls)
  else
    let s := setError None (setIsSyncing true s) in
    let '(s, ls) :=
      match fetched with
      | Rejected => (setError (Some DEFAULT_ERROR_MESSAGES.network) s, ls)
      | Responded status body =>
          if (status =? 429)%Z
          then (setError (Some DEFAULT_ERROR_MESSAGES.rateLimited) s, ls)
          else
            match body with
            | None => (setError (Some DEFAULT_ERROR_MESSAGES.network) s, ls)
            | Some result =>
                if negb (ok status) || negb (success result)
                then (setError
                        (Some (rError result ?? DEFAULT_ERROR_MESSAGES.syncFailed)) s,
                      ls)
                else
                  match rItems result with
                  | Some merged => (setItems (fun _ => merged) s, clearStoredItems ls)
                  | None => (s, ls)
                  end
            end
      end in
    (setIsSyncing false s, ls).

(** The effect that loads the initial items.  Nothing in its [try] block
    throws ([getStoredItems] and [syncWishlist] catch their own errors),
    so its [catch] is never entered. *)
Definition loadItems (fetched : Fetched) (w : WishlistState * LocalStorage)
  : WishlistState * LocalStorage :=
  let '(s, ls) := w in
  let s := setError None (setIsLoading true s) in
  let '(s, ls) :=
    if isGuest && enableGuestWishlist_
    then
      let storedItems := getStoredItems ls in
      (setItems (fun _ => map asWishlistItem storedItems) s, ls)
    else if negb isGuest
    then
      let storedItems := getStoredItems ls in
      if (0 <? List.length storedItems)%nat && enableAutoMerge_
      then syncWishlist fetched (s, ls)
      else (setItems (fun _ => map asWishlistItem storedItems) s, ls)
    else (s, ls) in
  (setIsLoading false s, ls).

(** The item that [add] builds; [now] is [new Date().toISOString()]. *)
Definition newItem (product : ProductInfo) (now : string) : WishlistItem :=
  {| productId := id product;
     variantId := own (read (pVariantId product));
     productTitle := title product;
     productHandle := own (read (handle product));
     variantTitle := own (read (pVariantTitle product));
     image := own (read (pImage product));
     price := own (read (pPrice product));
     addedAt := now |}.

Definition rollback (item : WishlistItem) (prev : list WishlistItem)
  : list WishlistItem :=
  filter (fun existing =>
            negb (matches (productId item) (read (variantId item)) existing))
         prev.

Definition add (product : ProductInfo) (now : string) (fetched : Fetched)
           (w : WishlistState * LocalStorage) : WishlistState * LocalStorage :=
  let '(s, ls) := w in
  let item := newItem product now in
  let s :=
    setItems (fun prev =>
      let exists_ :=
        existsb (matches (productId item) (read (variantId item))) prev in
      if exists_ then prev else item :: prev) s in
  if isGuest && enableGuestWishlist_
  then (s, snd (addStoredItem item ls))
  else if negb isGuest && given (apiKey config)
  then
    match fetched with
    | Rejected =>
        (setError (Some DEFAULT_ERROR_MESSAGES.network)
           (setItems (rollback item) s), ls)
    | Responded status None =>
        (setError (Some DEFAULT_ERROR_MESSAGES.network)
           (setItems (rollback item) s), ls)
    | Responded status (Some result) =>
        if negb (ok status) || negb (success result)
        then (setError (Some (rError result ?? DEFAULT_ERROR_MESSAGES.unknown))
                (setItems (rollback item) s), ls)
        else (s, ls)
    end
  else (s, ls).

Definition remove (pid : string) (vid : option string) (fetched : Fetched)
           (w : WishlistState * LocalStorage) : WishlistState * LocalStorage :=
  let '(s, ls) := w in
  let s := setItems (filter (fun item => negb (matches pid vid item))) s in
  if isGuest && enableGuestWishlist_
  then (s, snd (removeStoredItem pid vid ls))
  else if negb isGuest && given (apiKey config)
  then
    match fetched with
    | Rejected => (setError (Some DEFAULT_ERROR_MESSAGES.network) s, ls)
    | Responded status None =>
        (setError (Some DEFAULT_ERROR_MESSAGES.network) s, ls)
    | Responded status (Some result) =>
        if negb (ok status) || negb (success result)
        then (setError (Some (rError result ?? DEFAULT_ERROR_MESSAGES.unknown)) s, ls)
        else (s, ls)
    end
  else (s, ls).

Definition isWishlisted (s : WishlistState) (pid : string) (vid : option string)
  : bool :=
  existsb (matches pid vid) (items s).

Definition toggle (product : ProductInfo) (now : string) (fetched : Fetched)
           (w : WishlistState * LocalStorage) : WishlistState * LocalStorage :=
  let wishlisted :=
    existsb (matches (id product) (read (pVariantId product))) (items (fst w)) in
  if wishlisted
  then remove (id product) (read (pVariantId product)) fetched w
  else add product now fetched w.

Definition clear (w : WishlistState * LocalStorage) : WishlistState * LocalStorage :=
  let '(s, ls) := w in
  let s := setItems (fun _ => []) s in
  if isGuest && enableGuestWishlist_ then (s, clearStoredItems ls) else (s, ls).

Definition sync (fetched : Fetched) (w : WishlistState * LocalStorage)
  : WishlistState * LocalStorage :=
  syncWishlist fetched w.

End Provider.

(** ** utils/merge.ts, the other views *)

Section MergeViews.
Context {rt : Runtime}.

(** [beforeKeys] is a [Set<string>], kept as the list of its members. *)
Definition findNewItems (before after : list WishlistItem) : list WishlistItem :=
  let beforeKeys := map createItemKey before in
  filter (fun item => negb (existsb (String.eqb (createItemKey item)) beforeKeys))
         after.

Definition sortByNewest (items : list WishlistItem) : list WishlistItem :=
  Array_sort newestFirst items.

(** The comparator of [sortByOldest]. *)
Definition oldestFirst (a b : WishlistItem) : JSNumber :=
  num_sub (getTime (newDate (addedAt a))) (getTime (newDate (addedAt b))).

Definition sortByOldest (items : list WishlistItem) : list WishlistItem :=
  Array_sort oldestFirst items.

(** [localeCompare] depends on the host's locale data and is a parameter
    of the sort. *)
Definition sortByTitle (localeCompare : string -> string -> JSNumber)
    (items : list WishlistItem) : list WishlistItem :=
  Array_sort (fun a b => localeCompare (productTitle a) (productTitle b)) items.

End MergeViews.

(** ** utils/validation.ts, the identifiers *)

(** [\d] *)
Definition isDigit (c : ascii) : bool :=
  let n := N_of_ascii c in ((48 <=? n) && (n <=? 57))%N.

(** [\d*$]: digits up to the end of the input. *)
Fixpoint digitsToEnd (s : string) : bool :=
  match s with
  | EmptyString => true
  | String c rest => isDigit c && digitsToEnd rest
  end.

(** [\d+$] *)
Definition oneOrMoreDigits (s : string) : bool :=
  match s with
  | EmptyString => false
  | String c rest => isDigit c && digitsToEnd rest
  end.

(** What follows the literal [lit] at the start of [s], if [s] starts
    with it. *)
Fixpoint afterLiteral (lit s : string) : option string :=
  match lit, s with
  | EmptyString, _ => Some s
  | String a lit', String b s' =>
      if Ascii.eqb a b then afterLiteral lit' s' else None
  | String _ _, EmptyString => None
  end.

(** [/^<lit>\d+$/.test(s)] for a literal prefix. *)
Definition literalThenDigits (lit s : string) : bool :=
  match afterLiteral lit s with
  | Some rest => oneOrMoreDigits rest
  | None => false
  end.

Definition isValidProductId (productId : string) : bool :=
  if String.eqb productId "" then false
  else
    let gidRegex := literalThenDigits "gid://shopify/Product/" in
    let numericRegex := oneOrMoreDigits in
    gidRegex productId || numericRegex productId.

Definition isValidVariantId (variantId : string) : bool :=
  if String.eqb variantId "" then false
  else
    let gidRegex := literalThenDigits "gid://shopify/ProductVariant/" in
    let numericRegex := oneOrMoreDigits in
    gidRegex variantId || numericRegex variantId.

Definition isValidCustomerId (customerId : string) : bool :=
  if String.eqb customerId "" then false
  else
    let gidRegex := literalThenDigits "gid://shopify/Customer/" in
    let numericRegex := oneOrMoreDigits in
    gidRegex customerId || numericRegex customerId.

(** [s.match(/\/(\d+)$/)]: the capture of the leftmost match, [None] when
    nothing matches. *)
Fixpoint matchSlashDigits (s : string) : option string :=
  match s with
  | EmptyString => None
  | String c rest =>
      if Ascii.eqb c "/" && oneOrMoreDigits rest then Some rest
      else matchSlashDigits rest
  end.

Definition extractNumericId (gid : string) : string :=
  if String.eqb gid "" then ""
  else matchSlashDigits gid ?? gid.

(** ** utils/storage.ts, the sync marker *)

Definition getLastSyncTimestamp (ls : LocalStorage) : option string :=
  if negb (isStorageAvailable ls) then None
  else if getItemThrows ls then None
  else lastSyncTimestamp ls.

Definition setLastSyncTimestamp (timestamp : string) (ls : LocalStorage)
  : LocalStorage :=
  if negb (isStorageAvailable ls) then ls
  else if setItemThrows ls then ls
  else {| available := available ls;
          getItemThrows := getItemThrows ls;
          setItemThrows := setItemThrows ls;
          wishlistItems := wishlistItems ls;
          lastSyncTimestamp := Some timestamp |}.

(** ** Notions used in the statements *)

(** [x] is the item of [items] under the identity key [k]. *)
Definition sole_item (k : string) (x : WishlistItem) (items : list WishlistItem)
  : Prop :=
  In x items /\ createItemKey x = k /\
  forall y, In y items -> createItemKey y = k -> y = x.

Section Notions.
Context {rt : Runtime}.

(** [item.addedAt] is strictly earlier than [existing.addedAt], as
    [mergeWishlists] tests it. *)
Definition earlier (item existing : WishlistItem) : bool :=
  date_lt (newDate (addedAt item)) (newDate (addedAt existing)).

(** The entry under [item]'s key once [item] has gone through the
    second loop, from the entry [e] that was there. *)
Definition entryAfter (e : option WishlistItem) (item : WishlistItem)
  : WishlistItem :=
  match e with
  | None => item
  | Some existing =>
      if earlier item existing then spreadItems existing item else existing
  end.

End Notions.

(** Items of [items] with the same key string have the same [productId]:
    the key string stands for one pair of product and variant. *)
Definition keys_name_products (items : list WishlistItem) : Prop :=
  forall x y, In x items -> In y items ->
    createItemKey x = createItemKey y -> productId x = productId y.

(** Every entry of [m] is filed under its own key, and has the
    [productId] of an item of [U] with that key. *)
Definition filed (U : list WishlistItem) (m : JSMap WishlistItem) : Prop :=
  forall k e, In (k, e) m ->
    createItemKey e = k /\
    exists x, In x U /\ createItemKey x = k /\ productId e = productId x.

(** The property [name] of [record] is a string, and not the empty one. *)
Definition nonEmptyString (name : string) (record : JSON) : Prop :=
  exists s, prop name record = Some (JString s) /\ s <> "".

(** The pair ([productId], [variantId]) of a stored record. *)
Definition identity (record : JSON) : option JSON * option JSON :=
  (prop "productId" record, prop "variantId" record).

(** The remote call of an operation failed: the request was rejected, the
    body could not be read, the status is not 2xx, or the body says
    [success: false].  A rate-limited sync (status 429) is among these. *)
Definition callFailed (fetched : Fetched) : bool :=
  match fetched with
  | Rejected => true
  | Responded status None => true
  | Responded status (Some result) => negb (ok status) || negb (success result)
  end.

(** The error that [add] and [remove] report for a failed call. *)
Definition updateError (fetched : Fetched) : string :=
  match fetched with
  | Responded status (Some result) => rError result ?? DEFAULT_ERROR_MESSAGES.unknown
  | _ => DEFAULT_ERROR_MESSAGES.network
  end.

(** The error that [syncWishlist] reports for a failed call. *)
Definition syncError (fetched : Fetched) : string :=
  match fetched with
  | Rejected => DEFAULT_ERROR_MESSAGES.network
  | Responded status body =>
      if (status =? 429)%Z then DEFAULT_ERROR_MESSAGES.rateLimited
      else match body with
           | None => DEFAULT_ERROR_MESSAGES.network
           | Some result => rError result ?? DEFAULT_ERROR_MESSAGES.syncFailed
           end
  end.

(** An item has no price; an item has a price whose amount parses to a
    number with the property [P]. *)
Definition noPrice (x : WishlistItem) : Prop := read (price x) = None.

Definition pricedWith {rt : Runtime} (P : JSNumber -> Prop) (x : WishlistItem)
  : Prop :=
  exists p, read (price x) = Some p /\ P (parseFloat (amount p)).

Definition belowInfinity (n : JSNumber) : Prop :=
  match n with
  | Finite _ | NegInfinity => True
  | _ => False
  end.

Definition aboveZero (n : JSNumber) : Prop :=
  match n with
  | Finite q => (0 < q)%Q
  | Infinity => True
  | _ => False
  end.

(** ** Example data *)

(** Items like those of the test suite's [makeItem]: the required fields
    and nothing else. *)
Definition makeItem (pid ttl added : string) : WishlistItem :=
  {| productId := pid; variantId := Absent; productTitle := ttl;
     productHandle := Absent; variantTitle := Absent; image := Absent;
     price := Absent; addedAt := added |}.

Definition guestP1 : WishlistItem := makeItem "p1" "Guest title" "2024-01-10T00:00:00Z".

Definition customerP1 : WishlistItem := makeItem "p1" "Customer title" "2024-01-15T00:00:00Z".

Definition customerP2 : WishlistItem := makeItem "p2" "Product B" "2024-01-01T00:00:00Z".

(** Two items whose key strings coincide although their [productId]s
    differ. *)
Definition colonGuest : WishlistItem := makeItem "a:b" "Guest" "2024-01-01T00:00:00Z".

Definition colonCustomer : WishlistItem :=
  {| productId := "a"; variantId := Present "b:default"; productTitle := "Customer";
     productHandle := Absent; variantTitle := Absent; image := Absent;
     price := Absent; addedAt := "2024-01-02T00:00:00Z" |}.

(** Two items of the product "a:b" in the variant "b:default", one of the
    guest and one of the customer: their key string is the one the fusion
    of [colonGuest] and [colonCustomer] has. *)
Definition colonGuestVariant : WishlistItem :=
  {| productId := "a:b"; variantId := Present "b:default";
     productTitle := "Guest variant";
     productHandle := Absent; variantTitle := Absent; image := Absent;
     price := Absent; addedAt := "2024-02-01T00:00:00Z" |}.

Definition colonCustomerVariant : WishlistItem :=
  {| productId := "a:b"; variantId := Present "b:default";
     productTitle := "Customer variant";
     productHandle := Absent; variantTitle := Absent; image := Absent;
     price := Absent; addedAt := "2024-03-01T00:00:00Z" |}.

Definition defaultVariantP1 : WishlistItem :=
  {| productId := "p1"; variantId := Present "default"; productTitle := "Product A";
     productHandle := Absent; variantTitle := Absent; image := Absent;
     price := Absent; addedAt := "2024-01-15T00:00:00Z" |}.

Definition priced (pid amt : string) : WishlistItem :=
  {| productId := pid; variantId := Absent; productTitle := "Product A";
     productHandle := Absent; variantTitle := Absent; image := Absent;
     price := Present {| amount := amt; currencyCode := "USD" |};
     addedAt := "2024-01-15T12:00:00Z" |}.

Definition unpriced (pid : string) : WishlistItem :=
  makeItem pid "Product A" "2024-01-15T12:00:00Z".

(** A store that holds [text] and works. *)
Definition storeWith (text : option StoredText) : LocalStorage :=
  {| available := true; getItemThrows := false; setItemThrows := false;
     wishlistItems := text; lastSyncTimestamp := None |}.

Definition record (pid ttl added : string) : JSON :=
  JObject [("productId", JString pid); ("productTitle", JString ttl);
           ("addedAt", JString added)].

Definition recordA : JSON := record "gid://shopify/Product/1" "Product A" "2024-01-15T12:00:00Z".

Definition recordB : JSON := record "gid://shopify/Product/2" "Product B" "2024-01-16T12:00:00Z".

Definition recordC : JSON := record "gid://shopify/Product/3" "Product C" "2024-01-17T12:00:00Z".

(** A record without a title, and one whose [addedAt] is not a date. *)
Definition recordUntitled : JSON :=
  JObject [("productId", JString "gid://shopify/Product/4");
           ("addedAt", JString "2024-01-18T12:00:00Z")].

Definition recordUndated : JSON := record "gid://shopify/Product/5" "Product E" "yesterday".

(** A logged-in customer with an API key. *)
Definition customerConfig : WishBridgeConfig :=
  {| apiUrl := "https://wishbridge.temperedtools.xyz";
     apiKey := Some "key";
     shopDomain := "my-store.myshopify.com";
     customerId := Some "gid://shopify/Customer/1";
     customerAccessToken := None;
     enableGuestWishlist := None;
     enableAutoMerge := None |}.

Definition failedResponse : Fetched :=
  Responded 500 (Some {| success := false; rItems := None;
                         message := None; rError := None |}).

Definition productP1 : ProductInfo :=
  {| id := "p1"; title := "Guest title"; handle := Absent; pVariantId := Absent;
     pVariantTitle := Absent; pImage := Absent; pPrice := Absent |}.

Definition stateWith (l : list WishlistItem) : WishlistState :=
  {| items := l; isLoading := false; isSyncing := false; error := None |}.

Ltac solve_sole :=
  repeat split; simpl; auto;
  let y := fresh "y" in
  let H := fresh "H" in
  intros y H; simpl in H;
  repeat (destruct H as [H|H]; [subst y|]);
  try contradiction; intro; try reflexivity; discriminate.

(** ** Notions used in the further statements *)

(** The key of [item] is among [seen]. *)
Definition keySeen (seen : list string) (item : WishlistItem) : bool :=
  existsb (String.eqb (createItemKey item)) seen.

(** The first item of [items] that has the key of [x]. *)
Definition firstWithKeyOf (x : WishlistItem) (items : list WishlistItem)
  : option WishlistItem :=
  find (fun y => String.eqb (createItemKey y) (createItemKey x)) items.

(** [a] was added when [b] was, or later; both dates parse. *)
Definition notOlder {rt : Runtime} (a b : WishlistItem) : Prop :=
  match newDate (addedAt a), newDate (addedAt b) with
  | Some ta, Some tb => (tb <= ta)%Z
  | _, _ => False
  end.

(** [addedAt] parses as a date. *)
Definition dated {rt : Runtime} (x : WishlistItem) : Prop :=
  exists t, newDate (addedAt x) = Some t.

(** Reads and writes of the store go through. *)
Definition works (ls : LocalStorage) : Prop :=
  available ls = true /\ getItemThrows ls = false /\ setItemThrows ls = false.

(** The three required strings of an item are not empty. *)
Definition complete (item : WishlistItem) : bool :=
  negb (String.eqb (productId item) "")
  && negb (String.eqb (productTitle item) "")
  && negb (String.eqb (addedAt item) "").

(** The pair ([productId], [variantId]) of an item in memory. *)
Definition itemIdentity (x : WishlistItem) : string * option string :=
  (productId x, read (variantId x)).

(** The remote call succeeded: a 2xx response whose body says
    [success: true]. *)
Definition succeeded (fetched : Fetched) (result : WishlistResponse) : Prop :=
  exists status, fetched = Responded status (Some result)
                 /\ ok status = true /\ success result = true.

(** ** Further example data *)

Definition guestConfig : WishBridgeConfig :=
  {| apiUrl := "https://wishbridge.temperedtools.xyz";
     apiKey := None;
     shopDomain := "my-store.myshopify.com";
     customerId := None;
     customerAccessToken := None;
     enableGuestWishlist := None;
     enableAutoMerge := None |}.

Definition mergedResponse : WishlistResponse :=
  {| success := true; rItems := Some [customerP1; customerP2];
     message := None; rError := None |}.

Definition untitledP3 : WishlistItem := makeItem "p3" "" "2024-01-20T00:00:00Z".

Definition readOnlyStore : LocalStorage :=
  {| available := true; getItemThrows := false; setItemThrows := true;
     wishlistItems := Some (Text (JArray [recordA])); lastSyncTimestamp := None |}.

Ltac solve_dated := repeat constructor; eexists; reflexivity.

Ltac solve_distinct :=
  repeat (constructor; [simpl; intuition discriminate|]); constructor.

Ltac solve_keys_name_products :=
  let x := fresh "x" in
  let y := fresh "y" in
  let Hx := fresh "Hx" in
  let Hy := fresh "Hy" in
  intros x y Hx Hy; simpl in Hx, Hy;
  repeat (destruct Hx as [Hx|Hx]; [subst x|]); try contradiction;
  repeat (destruct Hy as [Hy|Hy]; [subst y|]); try contradiction;
  intro; try reflexivity; discriminate.

(** * Properties *)

(** ** Maps and sorting *)

Section MapFacts.
Variable V : Type.
Implicit Types (m : JSMap V) (k : string) (v : V).

Lemma Map_get_set_same m k v : Map_get k (Map_set k v m) = Some v.
Proof.
  induction m as [|[k' v'] m IH]; simpl.
  - now rewrite String.eqb_refl.
  - destruct (String.eqb k k') eqn:E; simpl; rewrite ?String.eqb_refl, ?E; auto.
Qed.

Lemma Map_get_set_other m k k' v :
  k <> k' -> Map_get k' (Map_set k v m) = Map_get k' m.
Proof.
  intros Hne.
  assert (Hb : String.eqb k' k = false) by (apply String.eqb_neq; congruence).
  induction m as [|[k0 v0] m IH]; simpl.
  - now rewrite Hb.
  - destruct (String.eqb k k0) eqn:E; simpl.
    + apply String.eqb_eq in E; subst k0. now rewrite Hb.
    + now rewrite IH.
Qed.

Lemma Map_get_In m k v : Map_get k m = Some v -> In (k, v) m.
Proof.
  induction m as [|[k' v'] m IH]; simpl; [discriminate|].
  destruct (String.eqb k k') eqn:E.
  - apply String.eqb_eq in E; subst. intros [= ->]. now left.
  - intros H. right. auto.
Qed.

Lemma Map_get_value m k v : Map_get k m = Some v -> In v (Map_values m).
Proof.
  intros H. apply Map_get_In in H.
  change v with (snd (k, v)). now apply in_map.
Qed.

Lemma In_Map_get m k v :
  NoDup (Map_keys m) -> In (k, v) m -> Map_get k m = Some v.
Proof.
  induction m as [|[k' v'] m IH]; simpl; [tauto|].
  intros Hnd [H|H]; inversion Hnd as [|? ? Hnot Hnd']; subst.
  - injection H as -> ->. now rewrite String.eqb_refl.
  - destruct (String.eqb k k') eqn:E; [|auto].
    apply String.eqb_eq in E; subst k'.
    exfalso. apply Hnot. change k with (fst (k, v)). now apply in_map.
Qed.

Lemma Map_get_None_keys m k : Map_get k m = None -> ~ In k (Map_keys m).
Proof.
  induction m as [|[k' v'] m IH]; simpl; [tauto|].
  destruct (String.eqb k k') eqn:E; [discriminate|].
  apply String.eqb_neq in E. intros H [Hk|Hk]; [congruence|]. now apply IH.
Qed.

(** [set] on a present key replaces in place; on a new key it appends. *)
Lemma Map_set_present m k v v0 :
  Map_get k m = Some v0 -> Map_keys (Map_set k v m) = Map_keys m.
Proof.
  induction m as [|[k' v'] m IH]; simpl; [discriminate|].
  destruct (String.eqb k k') eqn:E; simpl.
  - apply String.eqb_eq in E. now subst.
  - intros H. now rewrite IH.
Qed.

Lemma Map_set_new m k v :
  Map_get k m = None -> Map_set k v m = m ++ [(k, v)].
Proof.
  induction m as [|[k' v'] m IH]; simpl; [reflexivity|].
  destruct (String.eqb k k') eqn:E; [discriminate|].
  intros H. now rewrite IH.
Qed.

Lemma Map_set_In m k v k' v' :
  In (k', v') (Map_set k v m) -> (k', v') = (k, v) \/ In (k', v') m.
Proof.
  induction m as [|[k0 v0] m IH]; simpl.
  - intros [H|[]]. now left.
  - destruct (String.eqb k k0) eqn:E; simpl.
    + intros [H|H]; [now left | right; now right].
    + intros [H|H]; [right; now left|].
      destruct (IH H); [now left | right; now right].
Qed.

Lemma Map_set_NoDup m k v : NoDup (Map_keys m) -> NoDup (Map_keys (Map_set k v m)).
Proof.
  intros Hnd. destruct (Map_get k m) eqn:E.
  - now erewrite Map_set_present by eassumption.
  - rewrite Map_set_new by assumption. unfold Map_keys. rewrite map_app. simpl.
    apply Map_get_None_keys in E.
    apply NoDup_rev in Hnd. rewrite <- (rev_involutive (map fst m ++ [k])).
    apply NoDup_rev. rewrite rev_app_distr. simpl.
    constructor; [|exact Hnd]. now rewrite <- in_rev.
Qed.

End MapFacts.

Lemma sort_insert_Permutation A (cmp : A -> A -> JSNumber) x l :
  Permutation (sort_insert cmp x l) (x :: l).
Proof.
  induction l as [|y l IH]; simpl; [reflexivity|].
  destruct (num_pos (cmp x y)); [|reflexivity].
  rewrite IH. apply perm_swap.
Qed.

(** Sorting rearranges, it neither drops nor adds. *)
Lemma Array_sort_Permutation A (cmp : A -> A -> JSNumber) l :
  Permutation (Array_sort cmp l) l.
Proof.
  induction l as [|x l IH]; simpl; [reflexivity|].
  rewrite sort_insert_Permutation. now constructor.
Qed.

Lemma Array_sort_In A (cmp : A -> A -> JSNumber) l x :
  In x (Array_sort cmp l) <-> In x l.
Proof.
  split; apply Permutation_in;
    [apply Array_sort_Permutation | symmetry; apply Array_sort_Permutation].
Qed.

(** ** The merge, entry by entry *)

Section MergeFacts.
Context {rt : Runtime}.
Implicit Types (m : JSMap WishlistItem) (k : string).
Implicit Types (item existing l r : WishlistItem).

Lemma date_lt_irrefl (d : Date) : date_lt d d = false.
Proof. destruct d; simpl; [apply Z.ltb_irrefl | reflexivity]. Qed.

Lemma date_lt_trans (a b c : Date) :
  date_lt a b = true -> date_lt b c = true -> date_lt a c = true.
Proof.
  destruct a, b, c; simpl; try discriminate.
  rewrite !Z.ltb_lt. lia.
Qed.

Lemma mergeGuestItem_same m item :
  Map_get (createItemKey item) (mergeGuestItem m item)
  = Some (entryAfter (Map_get (createItemKey item) m) item).
Proof.
  unfold mergeGuestItem, entryAfter, earlier.
  destruct (Map_get (createItemKey item) m) as [existing|] eqn:E.
  - destruct (date_lt _ _); [apply Map_get_set_same | exact E].
  - apply Map_get_set_same.
Qed.

Lemma mergeGuestItem_other m item k :
  createItemKey item <> k -> Map_get k (mergeGuestItem m item) = Map_get k m.
Proof.
  intros Hne. unfold mergeGuestItem.
  destruct (Map_get (createItemKey item) m).
  - destruct (date_lt _ _); [now apply Map_get_set_other | reflexivity].
  - now apply Map_get_set_other.
Qed.

Lemma entryAfter_again e item :
  entryAfter (Some (entryAfter e item)) item = entryAfter e item.
Proof.
  destruct e as [existing|]; simpl; unfold earlier.
  - destruct (date_lt (newDate (addedAt item)) (newDate (addedAt existing))) eqn:E.
    + simpl. now rewrite date_lt_irrefl.
    + now rewrite E.
  - now rewrite date_lt_irrefl.
Qed.

Lemma guest_loop_other items : forall m k,
  (forall y, In y items -> createItemKey y <> k) ->
  Map_get k (fold_left mergeGuestItem items m) = Map_get k m.
Proof.
  induction items as [|x items IH]; intros m k H; simpl; [reflexivity|].
  rewrite IH by (intros; apply H; now right).
  apply mergeGuestItem_other, H. now left.
Qed.

Lemma guest_loop_settled items : forall m k l e,
  createItemKey l = k ->
  (forall y, In y items -> createItemKey y = k -> y = l) ->
  Map_get k m = Some (entryAfter e l) ->
  Map_get k (fold_left mergeGuestItem items m) = Some (entryAfter e l).
Proof.
  induction items as [|x items IH]; intros m k l e Hk Hsole Hm; simpl; [exact Hm|].
  apply IH; auto.
  - intros; apply Hsole; auto. now right.
  - destruct (string_dec (createItemKey x) k) as [Hx|Hx].
    + assert (x = l) by (apply Hsole; [now left | exact Hx]). subst x.
      subst k. rewrite mergeGuestItem_same, Hm. now rewrite entryAfter_again.
    + now rewrite mergeGuestItem_other.
Qed.

Lemma guest_loop_sole items : forall m k l,
  sole_item k l items ->
  Map_get k (fold_left mergeGuestItem items m)
  = Some (entryAfter (Map_get k m) l).
Proof.
  induction items as [|x items IH]; intros m k l (Hin & Hk & Hsole).
  - destruct Hin.
  - simpl. destruct (string_dec (createItemKey x) k) as [Hx|Hx].
    + assert (x = l) by (apply Hsole; [now left | exact Hx]). subst x.
      apply guest_loop_settled; auto.
      * intros; apply Hsole; auto. now right.
      * subst k. apply mergeGuestItem_same.
    + destruct Hin as [->|Hin]; [contradiction|].
      rewrite IH with (l := l).
      * now rewrite mergeGuestItem_other.
      * repeat split; auto. intros; apply Hsole; auto. now right.
Qed.

Lemma customer_loop_settled items : forall m k r,
  createItemKey r = k ->
  (forall y, In y items -> createItemKey y = k -> y = r) ->
  Map_get k m = Some r ->
  Map_get k (fold_left setCustomerItem items m) = Some r.
Proof.
  induction items as [|x items IH]; intros m k r Hk Hsole Hm; simpl; [exact Hm|].
  apply IH; auto.
  - intros; apply Hsole; auto. now right.
  - unfold setCustomerItem.
    destruct (string_dec (createItemKey x) k) as [Hx|Hx].
    + assert (x = r) by (apply Hsole; [now left | exact Hx]). subst x k.
      apply Map_get_set_same.
    + now rewrite Map_get_set_other.
Qed.

Lemma customer_loop_sole items : forall m k r,
  sole_item k r items ->
  Map_get k (fold_left setCustomerItem items m) = Some r.
Proof.
  induction items as [|x items IH]; intros m k r (Hin & Hk & Hsole).
  - destruct Hin.
  - simpl. destruct (string_dec (createItemKey x) k) as [Hx|Hx].
    + assert (x = r) by (apply Hsole; [now left | exact Hx]). subst x.
      apply customer_loop_settled; auto.
      * intros; apply Hsole; auto. now right.
      * subst k. apply Map_get_set_same.
    + destruct Hin as [->|Hin]; [contradiction|].
      apply IH. repeat split; auto. intros; apply Hsole; auto. now right.
Qed.

(** The entry of the merged map under a key that both collections
    hold. *)
Lemma mergedMap_shared_key local remote k l r :
  sole_item k l local -> sole_item k r remote ->
  Map_get k (mergedMap local remote) = Some (entryAfter (Some r) l).
Proof.
  intros Hl Hr. unfold mergedMap.
  rewrite guest_loop_sole with (l := l) by exact Hl.
  now rewrite customer_loop_sole with (r := r).
Qed.

Lemma mergedMap_entry_listed local remote k e :
  Map_get k (mergedMap local remote) = Some e ->
  In e (mergeWishlists local remote).
Proof.
  intros H. unfold mergeWishlists. apply Array_sort_In.
  eapply Map_get_value; eauto.
Qed.

End MergeFacts.

(** C1, as amended: for a key that both collections hold, when the local
    item's [addedAt] is strictly earlier than the remote item's, the
    merged entry is the local item laid over the remote entry: its
    [productId], [productTitle] and [addedAt] are the local item's, and
    each optional field ([variantId], [productHandle], [variantTitle],
    [image], [price]) is the local item's where the local item has that
    property and the remote entry's otherwise.  When the local timestamp
    is not strictly earlier, in particular when the two are equal, the
    remote entry is kept unchanged. *)
Theorem merge_shared_key_entry {rt : Runtime} (local remote : list WishlistItem)
    (k : string) (l r : WishlistItem) :
  sole_item k l local -> sole_item k r remote ->
  exists e,
    Map_get k (mergedMap local remote) = Some e /\
    In e (mergeWishlists local remote) /\
    (earlier l r = true ->
       productId e = productId l /\
       productTitle e = productTitle l /\
       variantId e = over (variantId r) (variantId l) /\
       productHandle e = over (productHandle r) (productHandle l) /\
       variantTitle e = over (variantTitle r) (variantTitle l) /\
       image e = over (image r) (image l) /\
       price e = over (price r) (price l) /\
       addedAt e = addedAt l) /\
    (earlier l r = false -> e = r) /\
    (newDate (addedAt l) = newDate (addedAt r) -> e = r).
Proof.
  intros Hl Hr.
  pose proof (mergedMap_shared_key Hl Hr) as Hget.
  exists (entryAfter (Some r) l). split; [exact Hget|].
  split; [eapply mergedMap_entry_listed; eassumption|].
  unfold entryAfter. split; [|split].
  - intros E. rewrite E. simpl. repeat split; reflexivity.
  - intros E. now rewrite E.
  - intros E. unfold earlier. now rewrite E, date_lt_irrefl.
Qed.

Lemma merge_shared_key_entry_witness :
  exists e,
    Map_get "p1:default" (mergedMap [guestP1] [customerP1; customerP2]) = Some e /\
    In e (mergeWishlists [guestP1] [customerP1; customerP2]) /\
    (earlier guestP1 customerP1 = true ->
       productId e = productId guestP1 /\
       productTitle e = productTitle guestP1 /\
       variantId e = over (variantId customerP1) (variantId guestP1) /\
       productHandle e = over (productHandle customerP1) (productHandle guestP1) /\
       variantTitle e = over (variantTitle customerP1) (variantTitle guestP1) /\
       image e = over (image customerP1) (image guestP1) /\
       price e = over (price customerP1) (price guestP1) /\
       addedAt e = addedAt guestP1) /\
    (earlier guestP1 customerP1 = false -> e = customerP1) /\
    (newDate (addedAt guestP1) = newDate (addedAt customerP1) -> e = customerP1).
Proof.
  apply (@merge_shared_key_entry Reference.runtime
           [guestP1] [customerP1; customerP2] "p1:default" guestP1 customerP1);
    solve_sole.
Defined.

(** C1 as stated fails: with a guest item added on 2024-01-10 and the
    customer's item for the same key added on 2024-01-15, the merged entry
    carries the guest item's title, not the customer entry's. *)
Lemma merge_fields_from_remote_counterexample :
  sole_item "p1:default" guestP1 [guestP1] /\
  sole_item "p1:default" customerP1 [customerP1] /\
  earlier guestP1 customerP1 = true /\
  exists e,
    Map_get "p1:default" (mergedMap [guestP1] [customerP1]) = Some e /\
    mergeWishlists [guestP1] [customerP1] = [e] /\
    productTitle e = "Guest title" /\
    productTitle e <> productTitle customerP1.
Proof.
  split; [solve_sole|]. split; [solve_sole|]. split; [reflexivity|].
  exists guestP1. repeat split; try reflexivity. discriminate.
Qed.

(** ** Merging again *)

Lemma append_inj_r (p a b : string) : (p ++ a = p ++ b)%string -> a = b.
Proof. induction p as [|c p IH]; simpl; [auto|]. intros [= H]. auto. Qed.

Lemma spreadItems_key (existing item : WishlistItem) :
  createItemKey existing = createItemKey item ->
  productId existing = productId item ->
  createItemKey (spreadItems existing item) = createItemKey item.
Proof.
  unfold createItemKey. intros Hk Hp. rewrite Hp in Hk.
  do 2 apply append_inj_r in Hk. cbn [spreadItems productId variantId].
  destruct (variantId item); cbn [over read] in *; [|reflexivity|reflexivity].
  now rewrite Hk.
Qed.

Section MergeAgain.
Context {rt : Runtime}.
Implicit Types (m : JSMap WishlistItem) (k : string).

Lemma Map_get_absent m k : ~ In k (Map_keys m) -> Map_get k m = None.
Proof.
  induction m as [|[k' v'] m IH]; simpl; [reflexivity|].
  intros H. destruct (String.eqb k k') eqn:E.
  - apply String.eqb_eq in E. subst. tauto.
  - apply IH. tauto.
Qed.

Lemma filed_setCustomerItem U m item :
  filed U m -> In item U -> filed U (setCustomerItem m item).
Proof.
  intros Hf Hin k e H. apply Map_set_In in H. destruct H as [[= -> ->]|H].
  - split; [reflexivity|]. exists item. auto.
  - now apply Hf.
Qed.

Lemma filed_mergeGuestItem U m item :
  keys_name_products U -> filed U m -> In item U ->
  filed U (mergeGuestItem m item).
Proof.
  intros HU Hf Hin. unfold mergeGuestItem.
  destruct (Map_get (createItemKey item) m) as [existing|] eqn:E.
  - destruct (date_lt _ _); [|exact Hf].
    intros k e H. apply Map_set_In in H. destruct H as [[= -> ->]|H].
    + apply Map_get_In, Hf in E. destruct E as (Hk & x & Hx & Hxk & Hxp).
      split.
      * apply spreadItems_key; [exact Hk|]. rewrite Hxp. now apply HU.
      * exists item. auto.
    + now apply Hf.
  - intros k e H. apply Map_set_In in H. destruct H as [[= -> ->]|H].
    + split; [reflexivity|]. exists item. auto.
    + now apply Hf.
Qed.

Lemma mergeGuestItem_NoDup m item :
  NoDup (Map_keys m) -> NoDup (Map_keys (mergeGuestItem m item)).
Proof.
  intros H. unfold mergeGuestItem.
  destruct (Map_get _ m); [destruct (date_lt _ _)|]; auto using Map_set_NoDup.
Qed.

Lemma customer_loop_inv U items : forall m,
  (forall x, In x items -> In x U) ->
  filed U m -> NoDup (Map_keys m) ->
  filed U (fold_left setCustomerItem items m)
  /\ NoDup (Map_keys (fold_left setCustomerItem items m)).
Proof.
  induction items as [|x items IH]; intros m Hsub Hf Hnd; simpl; [auto|].
  apply IH.
  - intros; apply Hsub; now right.
  - apply filed_setCustomerItem; [exact Hf | apply Hsub; now left].
  - now apply Map_set_NoDup.
Qed.

Lemma guest_loop_inv U items : forall m,
  keys_name_products U ->
  (forall x, In x items -> In x U) ->
  filed U m -> NoDup (Map_keys m) ->
  filed U (fold_left mergeGuestItem items m)
  /\ NoDup (Map_keys (fold_left mergeGuestItem items m)).
Proof.
  induction items as [|x items IH]; intros m HU Hsub Hf Hnd; simpl; [auto|].
  apply IH; auto.
  - intros; apply Hsub; now right.
  - apply filed_mergeGuestItem; [exact HU | exact Hf | apply Hsub; now left].
  - now apply mergeGuestItem_NoDup.
Qed.

Lemma mergedMap_inv A B :
  keys_name_products (A ++ B) ->
  filed (A ++ B) (mergedMap A B) /\ NoDup (Map_keys (mergedMap A B)).
Proof.
  intros HU. unfold mergedMap.
  destruct (@customer_loop_inv (A ++ B) B []) as [Hf Hnd].
  - intros; apply in_or_app; now right.
  - intros k e [].
  - constructor.
  - apply guest_loop_inv; auto. intros; apply in_or_app; now left.
Qed.

(** Once an entry is not later than [a], no later step makes it so. *)
Lemma guest_loop_keeps_earliest items : forall m (a e : WishlistItem),
  Map_get (createItemKey a) m = Some e -> earlier a e = false ->
  exists e', Map_get (createItemKey a) (fold_left mergeGuestItem items m) = Some e'
             /\ earlier a e' = false.
Proof.
  induction items as [|x items IH]; intros m a e Hm He; simpl; [eauto|].
  destruct (string_dec (createItemKey x) (createItemKey a)) as [Hx|Hx].
  - apply IH with (e := entryAfter (Some e) x).
    + rewrite <- Hx, mergeGuestItem_same. now rewrite Hx, Hm.
    + simpl. destruct (earlier x e) eqn:Ex; [|exact He].
      unfold earlier in *. simpl.
      destruct (date_lt (newDate (addedAt a)) (newDate (addedAt x))) eqn:Eax;
        [|reflexivity].
      now rewrite (date_lt_trans _ _ _ Eax Ex) in He.
  - apply IH with (e := e); [|exact He].
    now rewrite mergeGuestItem_other.
Qed.

(** After the second loop, no guest item is strictly earlier than the
    entry under its key. *)
Lemma guest_loop_not_earlier items : forall m (a : WishlistItem),
  In a items ->
  exists e, Map_get (createItemKey a) (fold_left mergeGuestItem items m) = Some e
            /\ earlier a e = false.
Proof.
  induction items as [|x items IH]; intros m a Hin; [destruct Hin|].
  simpl. destruct Hin as [->|Hin]; [|now apply IH].
  apply guest_loop_keeps_earliest
    with (e := entryAfter (Map_get (createItemKey a) m) a).
  - apply mergeGuestItem_same.
  - destruct (Map_get (createItemKey a) m) as [e|]; simpl.
    + destruct (earlier a e) eqn:E; [|exact E].
      unfold earlier. simpl. apply date_lt_irrefl.
    + apply date_lt_irrefl.
Qed.

(** The first loop over items with distinct keys files them in order. *)
Lemma customer_loop_distinct items : forall m,
  NoDup (Map_keys m ++ map createItemKey items) ->
  fold_left setCustomerItem items m
  = m ++ map (fun x => (createItemKey x, x)) items.
Proof.
  induction items as [|x items IH]; intros m Hnd; simpl.
  - now rewrite app_nil_r.
  - unfold setCustomerItem at 2. rewrite Map_set_new.
    + rewrite IH.
      * now rewrite <- app_assoc.
      * unfold Map_keys. rewrite map_app. simpl.
        now rewrite <- app_assoc.
    + apply Map_get_absent. simpl in Hnd.
      apply NoDup_remove_2 in Hnd. intros H. apply Hnd.
      apply in_or_app. now left.
Qed.

Lemma mergeGuestItem_settled m (a e : WishlistItem) :
  Map_get (createItemKey a) m = Some e -> earlier a e = false ->
  mergeGuestItem m a = m.
Proof.
  intros Hm He. unfold mergeGuestItem. rewrite Hm.
  unfold earlier in He. now rewrite He.
Qed.

Lemma guest_loop_settled_all items m :
  (forall a, In a items ->
     exists e, Map_get (createItemKey a) m = Some e /\ earlier a e = false) ->
  fold_left mergeGuestItem items m = m.
Proof.
  induction items as [|x items IH]; intros H; simpl; [reflexivity|].
  destruct (H x (or_introl eq_refl)) as (e & Hm & He).
  rewrite (mergeGuestItem_settled _ _ Hm He).
  apply IH. intros; apply H; now right.
Qed.

Lemma filed_keys U m :
  filed U m -> map createItemKey (Map_values m) = Map_keys m.
Proof.
  intros Hf. unfold Map_values, Map_keys. rewrite map_map.
  apply map_ext_in. intros [k e] Hin. simpl. now apply Hf in Hin.
Qed.

(** Merging the guest items into the merged list again only sorts it
    again. *)
Lemma mergeWishlists_again A B :
  keys_name_products (A ++ B) ->
  mergeWishlists A (mergeWishlists A B)
  = Array_sort newestFirst (mergeWishlists A B).
Proof.
  intros HU.
  destruct (mergedMap_inv A B HU) as [Hf Hnd].
  set (M := mergeWishlists A B).
  assert (HM : Permutation M (Map_values (mergedMap A B)))
    by apply Array_sort_Permutation.
  assert (HndM : NoDup (map createItemKey M)).
  { eapply Permutation_NoDup.
    - symmetry. apply Permutation_map. exact HM.
    - now rewrite (filed_keys Hf). }
  unfold mergeWishlists at 1. unfold mergedMap. fold M.
  rewrite customer_loop_distinct by exact HndM. simpl.
  rewrite guest_loop_settled_all.
  - unfold Map_values. rewrite map_map. simpl. now rewrite map_id.
  - intros a Ha.
    destruct (@guest_loop_not_earlier A (fold_left setCustomerItem B []) a Ha)
      as (e & Hget & He).
    fold (mergedMap A B) in Hget.
    exists e. split; [|exact He].
    apply In_Map_get.
    + unfold Map_keys. now rewrite map_map.
    + pose proof (Map_get_In _ _ Hget) as Hin.
      destruct (Hf _ _ Hin) as [Hk _].
      rewrite <- Hk at 1.
      apply (in_map (fun x => (createItemKey x, x))).
      eapply Permutation_in; [symmetry; exact HM|].
      eapply Map_get_value; eauto.
Qed.

End MergeAgain.

(** ** The earliest timestamp *)

(** When the key strings name products, the entry that the map of the
    merge holds under a key is the one item of the result that has this
    key. *)
Lemma mergeWishlists_carrier {rt : Runtime} (A B : list WishlistItem)
    (k : string) (e : WishlistItem) :
  keys_name_products (A ++ B) ->
  Map_get k (mergedMap A B) = Some e ->
  In e (mergeWishlists A B) /\ createItemKey e = k /\
  forall e', In e' (mergeWishlists A B) -> createItemKey e' = k -> e' = e.
Proof.
  intros HU Hget. destruct (mergedMap_inv A B HU) as [Hf Hnd].
  split; [eapply mergedMap_entry_listed; eassumption|].
  split; [apply (Hf k e), Map_get_In, Hget|].
  intros e' Hin Hk. unfold mergeWishlists in Hin.
  apply Array_sort_In in Hin. unfold Map_values in Hin.
  apply in_map_iff in Hin. destruct Hin as ([k' v] & Hv & Hin).
  simpl in Hv. subst v.
  destruct (Hf k' e' Hin) as [Hk' _].
  assert (k' = k) by congruence. subst k'.
  apply (In_Map_get _ _ _ Hnd) in Hin. congruence.
Qed.

(** What C4 says holds whenever the key strings name products (items of
    the two collections with the same key string have the same
    [productId]): for a key that the local collection holds in its item
    [l] and the remote collection in its item [r], both timestamps
    parseable, the result has exactly one item with this key, and its
    [addedAt] is the earlier of the two. *)
Theorem merge_earliest_addedAt {rt : Runtime} (local remote : list WishlistItem)
    (k : string) (l r : WishlistItem) (tl tr : Z) :
  keys_name_products (local ++ remote) ->
  sole_item k l local -> sole_item k r remote ->
  newDate (addedAt l) = Some tl -> newDate (addedAt r) = Some tr ->
  exists e,
    In e (mergeWishlists local remote) /\ createItemKey e = k /\
    (forall e', In e' (mergeWishlists local remote) ->
                createItemKey e' = k -> e' = e) /\
    newDate (addedAt e) = Some (Z.min tl tr) /\
    (addedAt e = addedAt l \/ addedAt e = addedAt r).
Proof.
  intros HU Hl Hr Htl Htr.
  pose proof (mergedMap_shared_key Hl Hr) as Hget.
  destruct (@mergeWishlists_carrier _ local remote _ _ HU Hget)
    as (Hin & Hk & Huniq).
  exists (entryAfter (Some r) l).
  split; [exact Hin|]. split; [exact Hk|]. split; [exact Huniq|].
  simpl. unfold earlier. rewrite Htl, Htr. simpl.
  destruct (tl <? tr)%Z eqn:E; simpl.
  - apply Z.ltb_lt in E. rewrite Htl, Z.min_l by lia. auto.
  - apply Z.ltb_ge in E. rewrite Htr, Z.min_r by lia. auto.
Qed.

Lemma merge_earliest_addedAt_witness :
  exists e,
    In e (mergeWishlists [guestP1] [customerP1; customerP2]) /\
    createItemKey e = "p1:default" /\
    (forall e', In e' (mergeWishlists [guestP1] [customerP1; customerP2]) ->
                createItemKey e' = "p1:default" -> e' = e) /\
    newDate (addedAt e) = Some (Z.min 1704844800000 1705276800000) /\
    (addedAt e = addedAt guestP1 \/ addedAt e = addedAt customerP1).
Proof.
  apply (@merge_earliest_addedAt Reference.runtime
           [guestP1] [customerP1; customerP2] "p1:default" guestP1 customerP1);
    try reflexivity; try solve_keys_name_products; solve_sole.
Defined.

(** C4 fails on the code where two key strings coincide although the
    products differ.  The guest holds the product "a:b" without a variant
    (2024-01-01) and in the variant "b:default" (2024-02-01), the customer
    holds the product "a" in the variant "b:default" (2024-01-02) and the
    product "a:b" in the variant "b:default" (2024-03-01).  Each collection
    has one item per key and every date parses.  The key "a:b:b:default"
    is in both collections, with the timestamps 2024-02-01 and 2024-03-01;
    the result holds two items with this key and one of them is dated
    2024-01-01: it is the fusion of the two items filed under
    "a:b:default".  With the first item of each collection alone, the key
    "a:b:default" is in both collections and no item of the result
    carries it. *)
Theorem merge_earliest_colliding_keys :
  sole_item "a:b:b:default" colonGuestVariant [colonGuest; colonGuestVariant] /\
  sole_item "a:b:b:default" colonCustomerVariant
    [colonCustomer; colonCustomerVariant] /\
  NoDup (map createItemKey [colonGuest; colonGuestVariant]) /\
  NoDup (map createItemKey [colonCustomer; colonCustomerVariant]) /\
  Forall dated
    ([colonGuest; colonGuestVariant] ++ [colonCustomer; colonCustomerVariant]) /\
  newDate (addedAt colonGuestVariant) = Some 1706745600000%Z /\
  newDate (addedAt colonCustomerVariant) = Some 1709251200000%Z /\
  map (fun e => (createItemKey e, addedAt e))
      (mergeWishlists [colonGuest; colonGuestVariant]
                      [colonCustomer; colonCustomerVariant])
  = [("a:b:b:default", "2024-02-01T00:00:00Z");
     ("a:b:b:default", "2024-01-01T00:00:00Z")] /\
  (exists e,
     In e (mergeWishlists [colonGuest; colonGuestVariant]
                          [colonCustomer; colonCustomerVariant]) /\
     createItemKey e = "a:b:b:default" /\
     newDate (addedAt e) = Some 1704067200000%Z /\
     newDate (addedAt e) <> Some (Z.min 1706745600000 1709251200000)) /\
  sole_item "a:b:default" colonGuest [colonGuest] /\
  sole_item "a:b:default" colonCustomer [colonCustomer] /\
  map createItemKey (mergeWishlists [colonGuest] [colonCustomer])
  = ["a:b:b:default"].
Proof.
  split; [solve_sole|]. split; [solve_sole|].
  split; [solve_distinct|]. split; [solve_distinct|].
  split; [solve_dated|].
  split; [reflexivity|]. split; [reflexivity|]. split; [reflexivity|].
  split.
  - eexists. split; [right; left; reflexivity|].
    split; [reflexivity|]. split; [reflexivity|]. discriminate.
  - split; [solve_sole|]. split; [solve_sole|]. reflexivity.
Qed.

(** ** Merging the merged collection again *)

(** What C7 says holds whenever the key strings name products: when no
    two items of [A] and [B] with different [productId]s have the same key
    string, merging [A] into [mergeWishlists A B] again gives the same
    items as [mergeWishlists A B]. *)
Theorem merge_idempotent {rt : Runtime} (A B : list WishlistItem) :
  keys_name_products (A ++ B) ->
  Permutation (mergeWishlists A (mergeWishlists A B)) (mergeWishlists A B).
Proof.
  intros HU. rewrite (mergeWishlists_again A B HU). apply Array_sort_Permutation.
Qed.

Lemma merge_idempotent_witness :
  Permutation
    (mergeWishlists [guestP1] (mergeWishlists [guestP1] [customerP1; customerP2]))
    (mergeWishlists [guestP1] [customerP1; customerP2]).
Proof.
  apply (@merge_idempotent Reference.runtime [guestP1] [customerP1; customerP2]).
  intros x y Hx Hy; simpl in Hx, Hy.
  repeat (destruct Hx as [Hx|Hx]; [subst x|]); try contradiction;
  repeat (destruct Hy as [Hy|Hy]; [subst y|]); try contradiction;
  intro; try reflexivity; discriminate.
Defined.

(** C7 fails on the code where two key strings coincide although the
    products differ.  The guest item (product "a:b", no variant) and the
    customer item (product "a", variant "b:default") have different
    [productId]s and different [variantId]s and the same key string
    "a:b:default".  Their merge is one item, of product "a:b" and variant
    "b:default", whose own key is "a:b:b:default"; merging the guest item
    in again gives two items, with the keys "a:b:b:default" and
    "a:b:default". *)
Theorem merge_again_colliding_keys :
  productId colonGuest <> productId colonCustomer /\
  read (variantId colonGuest) = None /\
  read (variantId colonCustomer) = Some "b:default" /\
  createItemKey colonGuest = "a:b:default" /\
  createItemKey colonCustomer = "a:b:default" /\
  (exists fused,
     mergeWishlists [colonGuest] [colonCustomer] = [fused] /\
     productId fused = "a:b" /\ variantId fused = Present "b:default" /\
     createItemKey fused = "a:b:b:default") /\
  map createItemKey
    (mergeWishlists [colonGuest] (mergeWishlists [colonGuest] [colonCustomer]))
    = ["a:b:b:default"; "a:b:default"] /\
  ~ (forall k,
       In k (map createItemKey
               (mergeWishlists [colonGuest]
                  (mergeWishlists [colonGuest] [colonCustomer])))
       -> In k (map createItemKey (mergeWishlists [colonGuest] [colonCustomer]))) /\
  ~ Permutation
      (mergeWishlists [colonGuest] (mergeWishlists [colonGuest] [colonCustomer]))
      (mergeWishlists [colonGuest] [colonCustomer]).
Proof.
  split; [discriminate|]. split; [reflexivity|]. split; [reflexivity|].
  split; [reflexivity|]. split; [reflexivity|].
  split; [eexists; repeat split|]. split; [reflexivity|]. split.
  - intros H. specialize (H "a:b:default" (or_intror (or_introl eq_refl))).
    simpl in H. destruct H as [H|[]]. discriminate H.
  - intros H. apply Permutation_length in H. discriminate H.
Qed.

(** ** Loading the stored collection *)

Lemma required_field (v : option JSON) :
  falsy v || negb (isTag (typeof v) TString) = false
  <-> exists s, v = Some (JString s) /\ s <> "".
Proof.
  destruct v as [[| b | q | s | xs | ps]|]; simpl;
    rewrite ?orb_true_r, ?orb_false_r;
    (split; [intros E | intros (s0 & E & Hs)]); try discriminate.
  - exists s. split; [reflexivity|]. now apply String.eqb_neq.
  - injection E as <-. now apply String.eqb_neq.
Qed.

Lemma isValidWishlistItem_spec (record : JSON) :
  isValidWishlistItem record = true
  <-> nonEmptyString "productId" record
      /\ nonEmptyString "productTitle" record
      /\ nonEmptyString "addedAt" record.
Proof.
  unfold isValidWishlistItem, nonEmptyString.
  destruct (falsy (Some record) || negb (isTag (typeof (Some record)) TObject)) eqn:E0.
  - split; [discriminate|]. intros ((s & Hs & _) & _).
    destruct record; simpl in *; discriminate.
  - rewrite <- !required_field.
    destruct (falsy (prop "productId" record) || _);
      destruct (falsy (prop "productTitle" record) || _);
      destruct (falsy (prop "addedAt" record) || _); intuition congruence.
Qed.

(** C5, as amended: [getStoredItems] returns a list for every state of
    the store.  When the store is available, the read does not throw and
    the stored text parses to an array, the result is exactly the
    elements of the array that have a non-empty string [productId], a
    non-empty string [productTitle] and a non-empty string [addedAt]
    (whether [addedAt] parses as a date is not looked at), in their stored
    order; in every other case the result is empty.  In particular one
    record that fails this validation among valid ones is left out and the
    valid ones are returned. *)
Theorem getStoredItems_validated (ls : LocalStorage) :
  (forall records,
     available ls = true -> getItemThrows ls = false ->
     wishlistItems ls = Some (Text (JArray records)) ->
     getStoredItems ls = filter isValidWishlistItem records /\
     (forall record,
        In record (getStoredItems ls)
        <-> In record records
            /\ nonEmptyString "productId" record
            /\ nonEmptyString "productTitle" record
            /\ nonEmptyString "addedAt" record)) /\
  (available ls = false \/ getItemThrows ls = true
   \/ (forall records, wishlistItems ls <> Some (Text (JArray records))) ->
   getStoredItems ls = []) /\
  (forall before corrupt after,
     available ls = true -> getItemThrows ls = false ->
     wishlistItems ls = Some (Text (JArray (before ++ corrupt :: after))) ->
     Forall (fun record => isValidWishlistItem record = true) (before ++ after) ->
     isValidWishlistItem corrupt = false ->
     getStoredItems ls = before ++ after).
Proof.
  assert (Hrun : forall records,
             available ls = true -> getItemThrows ls = false ->
             wishlistItems ls = Some (Text (JArray records)) ->
             getStoredItems ls = filter isValidWishlistItem records).
  { intros records Ha Hg Hw. unfold getStoredItems, isStorageAvailable.
    now rewrite Ha, Hg, Hw. }
  split; [|split].
  - intros records Ha Hg Hw. split; [now apply Hrun|].
    intros record. rewrite (Hrun _ Ha Hg Hw), filter_In, isValidWishlistItem_spec.
    reflexivity.
  - unfold getStoredItems, isStorageAvailable.
    intros [Ha|[Hg|Hw]].
    + now rewrite Ha.
    + rewrite Hg. now destruct (available ls).
    + destruct (available ls), (getItemThrows ls); simpl; try reflexivity.
      destruct (wishlistItems ls) as [[| |[]]|]; try reflexivity.
      now destruct (Hw elements).
  - intros before corrupt after Ha Hg Hw Hvalid Hcorrupt.
    rewrite (Hrun _ Ha Hg Hw), filter_app. simpl. rewrite Hcorrupt.
    rewrite <- filter_app. apply forallb_filter_id.
    now apply forallb_forall, Forall_forall.
Qed.

Lemma getStoredItems_validated_witness :
  getStoredItems
    (storeWith (Some (Text (JArray [recordA; recordUntitled; recordB; recordC]))))
  = [recordA] ++ [recordB; recordC].
Proof.
  refine (proj2 (proj2 (getStoredItems_validated
            (storeWith (Some (Text (JArray ([recordA] ++ recordUntitled
                                             :: [recordB; recordC])))))))
            [recordA] recordUntitled [recordB; recordC] _ _ _ _ _);
    try reflexivity.
  repeat constructor.
Defined.

(** C5 as stated fails: a stored record whose [addedAt] is the string
    "yesterday", which is not a date, is returned all the same; with
    three valid records around it the load yields four items. *)
Lemma getStoredItems_parseable_counterexample :
  prop "addedAt" recordUndated = Some (JString "yesterday") /\
  newDate "yesterday" = None /\
  getStoredItems (storeWith (Some (Text (JArray [recordUndated]))))
  = [recordUndated] /\
  getStoredItems
    (storeWith (Some (Text (JArray [recordA; recordUndated; recordB; recordC]))))
  = [recordA; recordUndated; recordB; recordC].
Proof. repeat split. Qed.

(** ** The stored collection keeps its items distinct *)

Lemma storedMatches_identity (pid : string) (vid : option string) (record : JSON) :
  storedMatches pid vid record = true
  <-> identity record = (Some (JString pid), option_map JString vid).
Proof.
  unfold storedMatches, identity, stored_eq. split.
  - destruct (prop "productId" record) as [[| | |s| |]|]; try discriminate.
    destruct (prop "variantId" record) as [[| | |s'| |]|];
      destruct vid as [v|]; simpl;
      rewrite ?andb_false_r, ?andb_true_r; try discriminate; intros E.
    + apply andb_true_iff in E. destruct E as [E1 E2].
      apply String.eqb_eq in E1, E2. now subst.
    + apply String.eqb_eq in E. now subst.
  - intros E. destruct vid as [v|]; simpl in E; injection E as -> ->;
      now rewrite ?String.eqb_refl.
Qed.

Lemma identity_itemJSON (item : WishlistItem) :
  identity (itemJSON item)
  = (Some (JString (productId item)), option_map JString (read (variantId item))).
Proof.
  unfold identity, itemJSON.
  destruct item as [pid vid ttl hdl vttl img prc added]; simpl.
  destruct vid, hdl, vttl, img, prc; reflexivity.
Qed.

(** Dropping elements keeps the images distinct. *)
Lemma NoDup_map_filter (X Y : Type) (image_of : X -> Y) (keep : X -> bool) :
  forall xs : list X,
    NoDup (map image_of xs) -> NoDup (map image_of (filter keep xs)).
Proof.
  intros xs. induction xs as [|x xs IH]; simpl; intros Hnd; [exact Hnd|].
  apply NoDup_cons_iff in Hnd. destruct Hnd as [Hfresh Hrest].
  destruct (keep x); simpl; [|now apply IH].
  apply NoDup_cons_iff. split; [|now apply IH].
  rewrite in_map_iff. intros (y & Hy & Hin).
  apply filter_In in Hin. apply Hfresh, in_map_iff. exists y. tauto.
Qed.

Lemma getStoredItems_valid (ls : LocalStorage) :
  filter isValidWishlistItem (getStoredItems ls) = getStoredItems ls.
Proof.
  apply forallb_filter_id, forallb_forall. intros record.
  unfold getStoredItems.
  destruct (negb _); [intros []|]. destruct (getItemThrows ls); [intros []|].
  destruct (wishlistItems ls) as [[| |[]]|]; try (intros []).
  intros H. now apply filter_In in H.
Qed.

(** After a write the store holds the valid records among those
    written, or it is as it was. *)
Lemma getStoredItems_setStoredItems (items : list JSON) (ls : LocalStorage) :
  getStoredItems (setStoredItems items ls) = filter isValidWishlistItem items
  \/ getStoredItems (setStoredItems items ls) = getStoredItems ls.
Proof.
  unfold setStoredItems, isStorageAvailable.
  destruct (available ls) eqn:Ha; simpl; [|now right].
  destruct (setItemThrows ls); [now right|].
  unfold getStoredItems, isStorageAvailable. simpl. rewrite Ha. simpl.
  destruct (getItemThrows ls); [now right | now left].
Qed.

(** C10: when no two stored items have the same [productId] and
    [variantId], that is still so after [addStoredItem], which leaves the
    collection as it is when the item is already there, and after
    [removeStoredItem]; both in the list returned and in the store. *)
Theorem stored_identities_stay_distinct (ls : LocalStorage) :
  NoDup (map identity (getStoredItems ls)) ->
  (forall item,
     NoDup (map identity (fst (addStoredItem item ls))) /\
     NoDup (map identity (getStoredItems (snd (addStoredItem item ls)))) /\
     (existsb (storedMatches (productId item) (read (variantId item)))
              (getStoredItems ls) = true ->
      addStoredItem item ls = (getStoredItems ls, ls))) /\
  (forall pid vid,
     NoDup (map identity (fst (removeStoredItem pid vid ls))) /\
     NoDup (map identity (getStoredItems (snd (removeStoredItem pid vid ls))))).
Proof.
  intros Hnd. split.
  - intros item. unfold addStoredItem.
    destruct (existsb _ (getStoredItems ls)) eqn:E; simpl.
    + auto.
    + assert (Hnew : NoDup (map identity (getStoredItems ls ++ [itemJSON item]))).
      { rewrite map_app. simpl.
        eapply Permutation_NoDup; [apply Permutation_cons_append|].
        constructor; [|exact Hnd].
        intros Hin. apply in_map_iff in Hin. destruct Hin as (r & Hr & Hin).
        rewrite identity_itemJSON in Hr. apply storedMatches_identity in Hr.
        assert (existsb (storedMatches (productId item) (read (variantId item)))
                        (getStoredItems ls) = true)
          by (apply existsb_exists; eauto).
        congruence. }
      split; [exact Hnew|]. split; [|discriminate].
      destruct (getStoredItems_setStoredItems
                  (getStoredItems ls ++ [itemJSON item]) ls) as [H|H];
        rewrite H; [now apply NoDup_map_filter | exact Hnd].
  - intros pid vid. unfold removeStoredItem. simpl.
    split; [now apply NoDup_map_filter|].
    match goal with
    | |- context [setStoredItems ?l ls] =>
        destruct (getStoredItems_setStoredItems l ls) as [H|H]; rewrite H
    end; [|exact Hnd].
    now do 2 apply NoDup_map_filter.
Qed.

Lemma stored_identities_stay_distinct_witness :
  let ls := storeWith (Some (Text (JArray [recordA; recordB]))) in
  let item := makeItem "gid://shopify/Product/3" "Product C" "2024-01-17T12:00:00Z" in
  NoDup (map identity (fst (addStoredItem item ls))) /\
  NoDup (map identity (getStoredItems (snd (addStoredItem item ls)))) /\
  NoDup (map identity (fst (removeStoredItem "gid://shopify/Product/1" None ls))) /\
  NoDup (map identity
           (getStoredItems (snd (removeStoredItem "gid://shopify/Product/1" None ls)))).
Proof.
  intros ls item.
  assert (Hnd : NoDup (map identity (getStoredItems ls))).
  { simpl. constructor; [|constructor; [|constructor]]; simpl.
    - intros [H|[]]. discriminate H.
    - intros []. }
  destruct (stored_identities_stay_distinct ls Hnd) as [Hadd Hrem].
  destruct (Hadd item) as (H1 & H2 & _).
  destruct (Hrem "gid://shopify/Product/1" None) as (H3 & H4).
  exact (conj H1 (conj H2 (conj H3 H4))).
Defined.

(** ** The provider *)

(** C2, as amended: when the provider initialises for a customer with an
    API key, a non-empty stored collection and auto-merge on, and the sync
    call fails, the items in memory are what they were before (none, for a
    provider just mounted): the stored collection is not loaded into
    memory.  It is still in the store, which is left as it was, and the
    error is set. *)
Theorem loadItems_failed_sync (config : WishBridgeConfig) (fetched : Fetched)
    (s : WishlistState) (ls : LocalStorage) :
  isGuest config = false -> given (apiKey config) = true ->
  getStoredItems ls <> [] -> enableAutoMerge_ config = true ->
  callFailed fetched = true ->
  items (fst (loadItems config fetched (s, ls))) = items s /\
  snd (loadItems config fetched (s, ls)) = ls /\
  error (fst (loadItems config fetched (s, ls))) = Some (syncError fetched) /\
  isLoading (fst (loadItems config fetched (s, ls))) = false /\
  isSyncing (fst (loadItems config fetched (s, ls))) = false.
Proof.
  intros Hguest Hkey Hstored Hmerge Hfail.
  unfold loadItems, syncWishlist. rewrite Hguest, Hmerge. simpl.
  destruct (getStoredItems ls) as [|record rest]; [congruence|]. simpl.
  unfold isGuest in Hguest. apply negb_false_iff in Hguest.
  rewrite Hguest, Hkey. simpl.
  destruct fetched as [|status [result|]]; simpl in *.
  - repeat split.
  - destruct (status =? 429)%Z; [repeat split|].
    rewrite Hfail. repeat split.
  - destruct (status =? 429)%Z; repeat split.
Qed.

Lemma loadItems_failed_sync_witness :
  let ls := storeWith (Some (Text (JArray [recordA]))) in
  items (fst (loadItems customerConfig Rejected (initialState, ls))) = [] /\
  snd (loadItems customerConfig Rejected (initialState, ls)) = ls /\
  error (fst (loadItems customerConfig Rejected (initialState, ls)))
  = Some DEFAULT_ERROR_MESSAGES.network /\
  isLoading (fst (loadItems customerConfig Rejected (initialState, ls))) = false /\
  isSyncing (fst (loadItems customerConfig Rejected (initialState, ls))) = false.
Proof.
  intros ls.
  apply (@loadItems_failed_sync customerConfig Rejected initialState ls);
    try reflexivity.
  discriminate.
Defined.

(** C2 as stated fails: a provider mounted for a customer, with one item
    in the store and a sync request that is rejected, ends with no item in
    memory, not with the stored one. *)
Lemma loadItems_fallback_counterexample :
  let ls := storeWith (Some (Text (JArray [recordA]))) in
  let w := loadItems customerConfig Rejected (initialState, ls) in
  isGuest customerConfig = false /\
  enableAutoMerge_ customerConfig = true /\
  getStoredItems ls = [recordA] /\
  callFailed Rejected = true /\
  items (fst w) = [] /\
  items (fst w) <> map asWishlistItem (getStoredItems ls) /\
  error (fst w) = Some DEFAULT_ERROR_MESSAGES.network.
Proof. repeat split. discriminate. Qed.

Lemma strict_eq_refl (a : option string) : strict_eq a a = true.
Proof. destruct a; simpl; [apply String.eqb_refl | reflexivity]. Qed.

Lemma read_own A (o : Optional A) : read (own (read o)) = read o.
Proof. now destruct o. Qed.

(** Rolling back an item that the optimistic step has just put in front
    gives the earlier items back. *)
Lemma rollback_fresh (item : WishlistItem) (prev : list WishlistItem) :
  existsb (matches (productId item) (read (variantId item))) prev = false ->
  rollback item (item :: prev) = prev.
Proof.
  intros Hnew. unfold rollback. simpl.
  unfold matches at 1. rewrite String.eqb_refl, strict_eq_refl. simpl.
  apply forallb_filter_id, forallb_forall. intros x Hx.
  apply negb_true_iff.
  destruct (matches (productId item) (read (variantId item)) x) eqn:E;
    [|reflexivity].
  assert (existsb (matches (productId item) (read (variantId item))) prev = true)
    by (apply existsb_exists; eauto).
  congruence.
Qed.

(** C3, as amended: when [add] is called for a customer with an item
    that is not yet in memory and the remote call fails, the items in
    memory afterwards are exactly those from before the call, and the
    error is the network message when the request is rejected or its body
    cannot be read, and otherwise the response's own error message or, if
    it has none, the "unknown" message. *)
Theorem add_failed_rolls_back (config : WishBridgeConfig) (product : ProductInfo)
    (now : string) (fetched : Fetched) (s : WishlistState) (ls : LocalStorage) :
  isGuest config = false -> given (apiKey config) = true ->
  callFailed fetched = true ->
  isWishlisted s (id product) (read (pVariantId product)) = false ->
  items (fst (add config product now fetched (s, ls))) = items s /\
  snd (add config product now fetched (s, ls)) = ls /\
  error (fst (add config product now fetched (s, ls))) = Some (updateError fetched).
Proof.
  intros Hguest Hkey Hfail Hnew.
  unfold isWishlisted in Hnew.
  assert (Hback : rollback (newItem product now) (newItem product now :: items s)
                  = items s).
  { apply rollback_fresh. simpl. now rewrite read_own. }
  unfold add. rewrite Hguest, Hkey.
  destruct fetched as [|status [result|]]; cbn [callFailed] in Hfail;
    try rewrite Hfail;
    cbn [negb andb fst snd items error setItems setError updateError
         productId variantId newItem];
    rewrite read_own, Hnew, Hback; repeat split.
Qed.

Lemma add_failed_rolls_back_witness :
  let s := stateWith [customerP2] in
  let ls := storeWith None in
  items (fst (add customerConfig productP1 "2024-01-10T00:00:00Z" failedResponse (s, ls)))
  = [customerP2] /\
  snd (add customerConfig productP1 "2024-01-10T00:00:00Z" failedResponse (s, ls)) = ls /\
  error (fst (add customerConfig productP1 "2024-01-10T00:00:00Z" failedResponse (s, ls)))
  = Some DEFAULT_ERROR_MESSAGES.unknown.
Proof.
  intros s ls.
  apply (@add_failed_rolls_back customerConfig productP1 "2024-01-10T00:00:00Z"
           failedResponse s ls); reflexivity.
Defined.

(** C3 as stated fails twice over.  When the item is already in memory,
    the optimistic step adds nothing and the rollback then removes the
    item that was there; and a response that reports failure without a
    message leaves the "unknown" error, which is neither the network nor
    the sync-failed message. *)
Lemma add_failed_counterexample :
  let s := stateWith [guestP1] in
  let ls := storeWith None in
  items s = [guestP1] /\
  callFailed Rejected = true /\
  items (fst (add customerConfig productP1 "2024-01-11T00:00:00Z" Rejected (s, ls)))
  = [] /\
  callFailed failedResponse = true /\
  error (fst (add customerConfig productP1 "2024-01-11T00:00:00Z" failedResponse
                (stateWith [], ls)))
  = Some DEFAULT_ERROR_MESSAGES.unknown /\
  DEFAULT_ERROR_MESSAGES.unknown <> DEFAULT_ERROR_MESSAGES.network /\
  DEFAULT_ERROR_MESSAGES.unknown <> DEFAULT_ERROR_MESSAGES.syncFailed.
Proof. repeat split; discriminate. Qed.

(** C8: when [remove] is called for a customer and the remote call fails,
    the error is set and the item is not put back: the items in memory are
    the earlier ones without it, and it is no longer wishlisted. *)
Theorem remove_failed_not_restored (config : WishBridgeConfig) (pid : string)
    (vid : option string) (fetched : Fetched) (s : WishlistState)
    (ls : LocalStorage) :
  isGuest config = false -> given (apiKey config) = true ->
  callFailed fetched = true ->
  error (fst (remove config pid vid fetched (s, ls))) = Some (updateError fetched) /\
  items (fst (remove config pid vid fetched (s, ls)))
  = filter (fun item => negb (matches pid vid item)) (items s) /\
  isWishlisted (fst (remove config pid vid fetched (s, ls))) pid vid = false /\
  (forall item, In item (items s) -> matches pid vid item = true ->
                ~ In item (items (fst (remove config pid vid fetched (s, ls))))).
Proof.
  intros Hguest Hkey Hfail.
  assert (Hitems : items (fst (remove config pid vid fetched (s, ls)))
                   = filter (fun item => negb (matches pid vid item)) (items s)).
  { unfold remove. rewrite Hguest, Hkey. simpl.
    destruct fetched as [|status [result|]]; simpl in *; try reflexivity.
    now rewrite Hfail. }
  split; [|split; [exact Hitems|split]].
  - unfold remove. rewrite Hguest, Hkey. simpl.
    destruct fetched as [|status [result|]]; simpl in *; try reflexivity.
    now rewrite Hfail.
  - unfold isWishlisted. rewrite Hitems.
    destruct (existsb _ _) eqn:E; [|reflexivity].
    apply existsb_exists in E. destruct E as (x & Hx & Hm).
    apply filter_In in Hx. destruct Hx as [_ Hx]. now rewrite Hm in Hx.
  - intros item _ Hm Hin. rewrite Hitems in Hin.
    apply filter_In in Hin. destruct Hin as [_ Hin]. now rewrite Hm in Hin.
Qed.

Lemma remove_failed_not_restored_witness :
  let s := stateWith [guestP1; customerP2] in
  let ls := storeWith None in
  error (fst (remove customerConfig "p1" None Rejected (s, ls)))
  = Some DEFAULT_ERROR_MESSAGES.network /\
  items (fst (remove customerConfig "p1" None Rejected (s, ls))) = [customerP2] /\
  isWishlisted (fst (remove customerConfig "p1" None Rejected (s, ls))) "p1" None
  = false.
Proof.
  intros s ls.
  destruct (@remove_failed_not_restored customerConfig "p1" None Rejected s ls)
    as (He & Hi & Hw & _); try reflexivity.
  exact (conj He (conj Hi Hw)).
Defined.

(** ** Sorting by price *)

Section SortSplit.
Variable A : Type.
Variable cmp : A -> A -> JSNumber.
Variables front back : A -> Prop.
Hypothesis front_stays :
  forall x y, front x -> back y -> num_pos (cmp x y) = false.
Hypothesis back_passes :
  forall x y, back x -> front y -> num_pos (cmp x y) = true.

Lemma sort_insert_front x ps us :
  front x -> Forall back us ->
  sort_insert cmp x (ps ++ us) = sort_insert cmp x ps ++ us.
Proof.
  intros Hx Hus. induction ps as [|p ps IH]; simpl.
  - destruct us as [|u us]; [reflexivity|]. simpl.
    inversion Hus; subst. now rewrite front_stays.
  - destruct (num_pos (cmp x p)); [now rewrite IH | reflexivity].
Qed.

Lemma sort_insert_back x ps us :
  back x -> Forall front ps ->
  sort_insert cmp x (ps ++ us) = ps ++ sort_insert cmp x us.
Proof.
  intros Hx Hps. induction Hps as [|p ps Hp Hps IH]; simpl; [reflexivity|].
  now rewrite back_passes, IH.
Qed.

(** When no front element goes behind a back element and every back
    element goes behind every front element, the sorted list is the front
    elements followed by the back elements. *)
Lemma Array_sort_front_back l :
  Forall (fun x => front x \/ back x) l ->
  exists ps us,
    Array_sort cmp l = ps ++ us /\ Forall front ps /\ Forall back us.
Proof.
  induction 1 as [|x l Hx Hl (ps & us & E & Hps & Hus)]; simpl.
  - exists [], []. auto.
  - rewrite E. destruct Hx as [Hx|Hx].
    + exists (sort_insert cmp x ps), us.
      split; [now apply sort_insert_front|]. split; [|exact Hus].
      eapply Permutation_Forall; [symmetry; apply sort_insert_Permutation|].
      now constructor.
    + exists ps, (sort_insert cmp x us).
      split; [now apply sort_insert_back|]. split; [exact Hps|].
      eapply Permutation_Forall; [symmetry; apply sort_insert_Permutation|].
      now constructor.
Qed.

End SortSplit.

(** Low to high, the items without a price come last whenever every
    amount parses to a number below infinity. *)
Lemma sortByPriceLowToHigh_unpriced_last {rt : Runtime} (items : list WishlistItem) :
  Forall (fun x => pricedWith belowInfinity x \/ noPrice x) items ->
  exists ps us,
    sortByPriceLowToHigh items = ps ++ us
    /\ Forall (pricedWith belowInfinity) ps /\ Forall noPrice us.
Proof.
  apply Array_sort_front_back.
  - intros x y (p & Hp & Hv) Hy. unfold priceLowToHigh, noPrice in *.
    rewrite Hp, Hy. destruct (parseFloat (amount p)); simpl in *; tauto.
  - intros x y Hx (p & Hp & Hv). unfold priceLowToHigh, noPrice in *.
    rewrite Hp, Hx. destruct (parseFloat (amount p)); simpl in *; tauto.
Qed.

(** High to low, they come last whenever every amount parses to a number
    above zero; the items that break this are those priced at zero or
    below. *)
Lemma sortByPriceHighToLow_unpriced_last {rt : Runtime} (items : list WishlistItem) :
  Forall (fun x => pricedWith aboveZero x \/ noPrice x) items ->
  exists ps us,
    sortByPriceHighToLow items = ps ++ us
    /\ Forall (pricedWith aboveZero) ps /\ Forall noPrice us.
Proof.
  apply Array_sort_front_back.
  - intros x y (p & Hp & Hv) Hy. unfold priceHighToLow, noPrice in *.
    rewrite Hp, Hy. destruct (parseFloat (amount p)); simpl in *; try tauto.
    apply negb_false_iff, Qle_bool_iff. lra.
  - intros x y Hx (p & Hp & Hv). unfold priceHighToLow, noPrice in *.
    rewrite Hp, Hx. destruct (parseFloat (amount p)); simpl in *; try tauto.
    apply negb_true_iff. destruct (Qle_bool (q - 0) 0) eqn:E; [|reflexivity].
    apply Qle_bool_iff in E. lra.
Qed.

(** C6 fails on the code for the high-to-low sort: an item without a
    price counts as 0 there, so it ties with an item whose price is 0.00
    and stays in front of it. *)
Theorem sortByPriceHighToLow_free_item :
  sortByPriceHighToLow [unpriced "p1"; priced "p2" "0.00"]
  = [unpriced "p1"; priced "p2" "0.00"]
  /\ read (price (unpriced "p1")) = None
  /\ read (price (priced "p2" "0.00"))
     = Some {| amount := "0.00"; currencyCode := "USD" |}
  /\ sortByPriceLowToHigh [unpriced "p1"; priced "p2" "0.00"]
     = [priced "p2" "0.00"; unpriced "p1"].
Proof. repeat split. Qed.

(** * Further properties *)

(** ** Deduplication *)

Lemma keySeen_In (seen : list string) (item : WishlistItem) :
  keySeen seen item = true <-> In (createItemKey item) seen.
Proof.
  unfold keySeen. rewrite existsb_exists. split.
  - intros (k & Hk & E). apply String.eqb_eq in E. now subst.
  - intros H. exists (createItemKey item). split; [exact H|apply String.eqb_refl].
Qed.

Lemma keySeen_cons (k : string) (seen : list string) (item : WishlistItem) :
  keySeen (k :: seen) item = String.eqb (createItemKey item) k || keySeen seen item.
Proof. reflexivity. Qed.

Lemma deduplicateLoop_first (items : list WishlistItem) :
  forall (seen : list string) (x : WishlistItem),
    In x (deduplicateLoop seen items)
    <-> keySeen seen x = false /\ firstWithKeyOf x items = Some x.
Proof.
  unfold firstWithKeyOf.
  induction items as [|y rest IH]; intros seen x; simpl.
  - split; [tauto | intros [_ [=]]].
  - fold (keySeen seen y).
    destruct (String.eqb (createItemKey y) (createItemKey x)) eqn:Eyx.
    + apply String.eqb_eq in Eyx.
      destruct (keySeen seen y) eqn:Ey.
      * rewrite IH. unfold keySeen in *. rewrite <- Eyx, Ey.
        split; [intros [[=] _] | intros [[=] _]].
      * simpl. rewrite IH, keySeen_cons, <- Eyx, String.eqb_refl. simpl.
        unfold keySeen in *. rewrite <- Eyx, Ey.
        split.
        -- intros [->|[[=] _]]. auto.
        -- intros [_ [= ->]]. now left.
    + destruct (keySeen seen y) eqn:Ey.
      * apply IH.
      * simpl. rewrite IH, keySeen_cons.
        assert (Exy : String.eqb (createItemKey x) (createItemKey y) = false)
          by (rewrite String.eqb_sym; exact Eyx).
        rewrite Exy. simpl.
        split; [intros [->|H]; [|exact H] | intros H; now right].
        now rewrite String.eqb_refl in Eyx.
Qed.

Lemma deduplicateLoop_NoDup (items : list WishlistItem) :
  forall seen : list string,
    NoDup (map createItemKey (deduplicateLoop seen items)).
Proof.
  induction items as [|y rest IH]; intros seen; simpl; [constructor|].
  fold (keySeen seen y). destruct (keySeen seen y); [apply IH|].
  simpl. constructor; [|apply IH].
  rewrite in_map_iff. intros (z & Hz & Hin).
  apply deduplicateLoop_first in Hin. destruct Hin as [Hseen _].
  rewrite keySeen_cons, Hz, String.eqb_refl in Hseen. discriminate.
Qed.

Lemma deduplicateLoop_distinct (items : list WishlistItem) :
  forall seen : list string,
    (forall x, In x items -> keySeen seen x = false) ->
    NoDup (map createItemKey items) ->
    deduplicateLoop seen items = items.
Proof.
  induction items as [|y rest IH]; intros seen Hseen Hnd; simpl; [reflexivity|].
  fold (keySeen seen y). rewrite (Hseen y (or_introl eq_refl)).
  simpl in Hnd. apply NoDup_cons_iff in Hnd. destruct Hnd as [Hy Hnd].
  f_equal. apply IH; [|exact Hnd].
  intros x Hx. rewrite keySeen_cons, (Hseen x (or_intror Hx)), orb_false_r.
  apply String.eqb_neq. intros E. apply Hy. rewrite <- E. now apply in_map.
Qed.

(** The keys of the result are the keys of the input that were not seen
    before. *)
Lemma deduplicateLoop_key_set (items : list WishlistItem) (seen : list string)
    (k : string) :
  In k (map createItemKey (deduplicateLoop seen items))
  <-> In k (map createItemKey items) /\ ~ In k seen.
Proof.
  rewrite !in_map_iff. split.
  - intros (x & Hk & Hx). apply deduplicateLoop_first in Hx.
    destruct Hx as [Hseen Hfirst]. split.
    + exists x. split; [exact Hk|]. now apply find_some in Hfirst.
    + rewrite <- Hk, <- keySeen_In. now rewrite Hseen.
  - intros [(x & Hk & Hx) Hnot].
    destruct (firstWithKeyOf x items) as [y|] eqn:E.
    + pose proof (find_some _ _ E) as [Hy Eyx]. apply String.eqb_eq in Eyx.
      exists y. split; [congruence|].
      apply deduplicateLoop_first. split.
      * destruct (keySeen seen y) eqn:Ey; [|reflexivity].
        apply keySeen_In in Ey. rewrite Eyx, Hk in Ey. contradiction.
      * unfold firstWithKeyOf in *. now rewrite Eyx.
    + unfold firstWithKeyOf in E.
      pose proof (find_none _ _ E x Hx) as H. simpl in H.
      now rewrite String.eqb_refl in H.
Qed.

(** X1: [deduplicateItems] keeps exactly the first item of each key: an
    item is in the result when, and only when, it is the first item of the
    input with its key. *)
Theorem deduplicateItems_keeps_first (items : list WishlistItem) (x : WishlistItem) :
  In x (deduplicateItems items) <-> firstWithKeyOf x items = Some x.
Proof.
  unfold deduplicateItems. rewrite deduplicateLoop_first. simpl. tauto.
Qed.

(** X2: the result of [deduplicateItems] never holds two items with the
    same key, and every key of the input is still there. *)
Theorem deduplicateItems_keys (items : list WishlistItem) :
  NoDup (map createItemKey (deduplicateItems items)) /\
  (forall k, In k (map createItemKey (deduplicateItems items))
             <-> In k (map createItemKey items)).
Proof.
  split; [apply deduplicateLoop_NoDup|].
  intros k. unfold deduplicateItems. split.
  - intros H. apply (deduplicateLoop_key_set items [] k) in H. tauto.
  - intros H. apply (deduplicateLoop_key_set items [] k). split; [exact H|].
    intros [].
Qed.

(** X3: [deduplicateItems] returns its input unchanged exactly when the
    input has no two items with the same key; so deduplicating twice is
    deduplicating once. *)
Theorem deduplicateItems_fixpoint (items : list WishlistItem) :
  (deduplicateItems items = items <-> NoDup (map createItemKey items)) /\
  deduplicateItems (deduplicateItems items) = deduplicateItems items.
Proof.
  assert (Hfix : forall l, NoDup (map createItemKey l) -> deduplicateItems l = l).
  { intros l Hnd. apply deduplicateLoop_distinct; [reflexivity | exact Hnd]. }
  split; [split|].
  - intros E. rewrite <- E. apply deduplicateLoop_NoDup.
  - apply Hfix.
  - apply Hfix, deduplicateLoop_NoDup.
Qed.

(** ** What the merge holds *)

Section MergeContents.
Context {rt : Runtime}.
Implicit Types (m : JSMap WishlistItem) (k : string).

Lemma Map_set_keys m k (v : WishlistItem) (k' : string) :
  In k' (Map_keys (Map_set k v m)) <-> k' = k \/ In k' (Map_keys m).
Proof.
  destruct (Map_get k m) as [v0|] eqn:E.
  - erewrite Map_set_present by eassumption. split; [now right|].
    intros [->|H]; [|exact H].
    apply Map_get_In in E. change k with (fst (k, v0)). now apply in_map.
  - rewrite Map_set_new by assumption. unfold Map_keys.
    rewrite map_app, in_app_iff. simpl. intuition congruence.
Qed.

Lemma mergeGuestItem_keys m (item : WishlistItem) (k' : string) :
  In k' (Map_keys (mergeGuestItem m item))
  <-> k' = createItemKey item \/ In k' (Map_keys m).
Proof.
  unfold mergeGuestItem.
  destruct (Map_get (createItemKey item) m) as [existing|] eqn:E.
  - assert (Hin : In (createItemKey item) (Map_keys m)).
    { apply Map_get_In in E.
      change (createItemKey item) with (fst (createItemKey item, existing)).
      now apply in_map. }
    destruct (date_lt _ _).
    + rewrite Map_set_keys. tauto.
    + split; [now right|]. intros [->|H]; assumption.
  - apply Map_set_keys.
Qed.

Lemma customer_loop_keys (items : list WishlistItem) : forall m k,
  In k (Map_keys (fold_left setCustomerItem items m))
  <-> In k (Map_keys m) \/ In k (map createItemKey items).
Proof.
  induction items as [|x items IH]; intros m k; simpl; [tauto|].
  rewrite IH. unfold setCustomerItem. rewrite Map_set_keys. intuition congruence.
Qed.

Lemma guest_loop_keys (items : list WishlistItem) : forall m k,
  In k (Map_keys (fold_left mergeGuestItem items m))
  <-> In k (Map_keys m) \/ In k (map createItemKey items).
Proof.
  induction items as [|x items IH]; intros m k; simpl; [tauto|].
  rewrite IH, mergeGuestItem_keys. intuition congruence.
Qed.

Lemma mergedMap_keys (A B : list WishlistItem) (k : string) :
  In k (Map_keys (mergedMap A B)) <-> In k (map createItemKey (A ++ B)).
Proof.
  unfold mergedMap. rewrite guest_loop_keys, customer_loop_keys, map_app, in_app_iff.
  simpl. tauto.
Qed.

Lemma customer_loop_NoDup (items : list WishlistItem) : forall m,
  NoDup (Map_keys m) -> NoDup (Map_keys (fold_left setCustomerItem items m)).
Proof.
  induction items as [|x items IH]; intros m H; simpl; [exact H|].
  apply IH. now apply Map_set_NoDup.
Qed.

Lemma guest_loop_NoDup (items : list WishlistItem) : forall m,
  NoDup (Map_keys m) -> NoDup (Map_keys (fold_left mergeGuestItem items m)).
Proof.
  induction items as [|x items IH]; intros m H; simpl; [exact H|].
  apply IH. now apply mergeGuestItem_NoDup.
Qed.

Lemma mergedMap_NoDup (A B : list WishlistItem) : NoDup (Map_keys (mergedMap A B)).
Proof.
  unfold mergedMap. apply guest_loop_NoDup, customer_loop_NoDup. constructor.
Qed.

Lemma mergeWishlists_length (A B : list WishlistItem) :
  List.length (mergeWishlists A B) = List.length (Map_keys (mergedMap A B)).
Proof.
  unfold mergeWishlists.
  rewrite (Permutation_length (Array_sort_Permutation _ _)).
  unfold Map_values, Map_keys. now rewrite !length_map.
Qed.

Lemma customer_loop_absent (items : list WishlistItem) : forall m k,
  (forall y, In y items -> createItemKey y <> k) ->
  Map_get k (fold_left setCustomerItem items m) = Map_get k m.
Proof.
  induction items as [|x items IH]; intros m k H; simpl; [reflexivity|].
  rewrite IH by (intros; apply H; now right).
  unfold setCustomerItem. apply Map_get_set_other, H. now left.
Qed.

End MergeContents.

(** The merge has as many items as the two collections have distinct
    key strings. *)
Lemma mergeWishlists_as_many {rt : Runtime} (A B : list WishlistItem) :
  List.length (mergeWishlists A B) = List.length (deduplicateItems (A ++ B)).
Proof.
  rewrite mergeWishlists_length.
  rewrite <- (length_map createItemKey (deduplicateItems _)).
  apply Permutation_length, NoDup_Permutation.
  - apply mergedMap_NoDup.
  - apply deduplicateLoop_NoDup.
  - intros k. rewrite mergedMap_keys. unfold deduplicateItems.
    rewrite deduplicateLoop_key_set. simpl. tauto.
Qed.

(** When the key strings name products, the keys of the returned items
    are the keys of the map. *)
Lemma mergeWishlists_keys {rt : Runtime} (A B : list WishlistItem) :
  keys_name_products (A ++ B) ->
  Permutation (map createItemKey (mergeWishlists A B)) (Map_keys (mergedMap A B)).
Proof.
  intros HU. destruct (mergedMap_inv A B HU) as [Hf _].
  rewrite <- (filed_keys Hf). apply Permutation_map, Array_sort_Permutation.
Qed.

(** X4: the merge returns as many items as the two collections have
    distinct key strings, the number that deduplicating the two together
    leaves.  When the key strings name products (items with the same key
    string have the same [productId]), it returns one item per distinct
    key: no two returned items have the same key, and the keys of the
    returned items are the keys of the two collections. *)
Theorem mergeWishlists_counts_keys {rt : Runtime} (guestItems customerItems : list WishlistItem) :
  List.length (mergeWishlists guestItems customerItems)
  = List.length (deduplicateItems (guestItems ++ customerItems)) /\
  (keys_name_products (guestItems ++ customerItems) ->
   NoDup (map createItemKey (mergeWishlists guestItems customerItems)) /\
   forall k, In k (map createItemKey (mergeWishlists guestItems customerItems))
             <-> In k (map createItemKey (guestItems ++ customerItems))).
Proof.
  split; [apply mergeWishlists_as_many|].
  intros HU. pose proof (mergeWishlists_keys guestItems customerItems HU) as HP.
  split.
  - eapply Permutation_NoDup; [symmetry; exact HP | apply mergedMap_NoDup].
  - intros k. rewrite <- mergedMap_keys. split; apply Permutation_in.
    + exact HP.
    + symmetry. exact HP.
Qed.

Lemma mergeWishlists_counts_keys_witness :
  List.length (mergeWishlists [guestP1] [customerP1; customerP2])
  = List.length (deduplicateItems ([guestP1] ++ [customerP1; customerP2])) /\
  NoDup (map createItemKey (mergeWishlists [guestP1] [customerP1; customerP2])) /\
  forall k,
    In k (map createItemKey (mergeWishlists [guestP1] [customerP1; customerP2]))
    <-> In k (map createItemKey ([guestP1] ++ [customerP1; customerP2])).
Proof.
  destruct (@mergeWishlists_counts_keys Reference.runtime
              [guestP1] [customerP1; customerP2]) as [Hlen Hkeys].
  split; [exact Hlen|]. apply Hkeys. solve_keys_name_products.
Defined.

(** X5: an item whose key only one of the two collections holds goes
    through the merge unchanged, whichever side it comes from. *)
Theorem mergeWishlists_one_sided {rt : Runtime} (guestItems customerItems : list WishlistItem)
    (k : string) (x : WishlistItem) :
  (sole_item k x guestItems /\
   (forall y, In y customerItems -> createItemKey y <> k))
  \/ (sole_item k x customerItems /\
      (forall y, In y guestItems -> createItemKey y <> k)) ->
  Map_get k (mergedMap guestItems customerItems) = Some x /\
  In x (mergeWishlists guestItems customerItems).
Proof.
  intros H.
  assert (Hget : Map_get k (mergedMap guestItems customerItems) = Some x).
  { unfold mergedMap. destruct H as [[Hx Hnone]|[Hx Hnone]].
    - rewrite guest_loop_sole with (l := x) by exact Hx.
      now rewrite customer_loop_absent.
    - rewrite guest_loop_other by exact Hnone.
      now apply customer_loop_sole. }
  split; [exact Hget|]. eapply mergedMap_entry_listed; eassumption.
Qed.

(** ** The order of the sorted views *)

Section SortOrder.
Variable A : Type.
Variable cmp : A -> A -> JSNumber.
Variable known : A -> Prop.
Variable before : A -> A -> Prop.
Hypothesis stays : forall x y,
  known x -> known y -> num_pos (cmp x y) = false -> before x y.
Hypothesis passes : forall x y,
  known x -> known y -> num_pos (cmp x y) = true -> before y x.
Hypothesis before_trans : forall x y z,
  known x -> known y -> known z -> before x y -> before y z -> before x z.

Lemma sort_insert_sorted x l :
  known x -> Forall known l -> StronglySorted before l ->
  StronglySorted before (sort_insert cmp x l).
Proof.
  intros Hx Hl Hs. induction Hs as [|y l Hs IH Hy]; simpl.
  - repeat constructor.
  - apply Forall_cons_iff in Hl. destruct Hl as [Hky Hl].
    destruct (num_pos (cmp x y)) eqn:E.
    + constructor; [now apply IH|].
      eapply Permutation_Forall; [symmetry; apply sort_insert_Permutation|].
      constructor; [now apply passes | exact Hy].
    + constructor; [now constructor|].
      assert (Hxy : before x y) by now apply stays.
      constructor; [exact Hxy|].
      rewrite Forall_forall in *. intros z Hz.
      apply before_trans with (y := y); auto.
Qed.

(** With a comparator that agrees with a transitive order on the
    elements, the sorted list is in that order. *)
Lemma Array_sort_sorted l :
  Forall known l -> StronglySorted before (Array_sort cmp l).
Proof.
  induction 1 as [|x l Hx Hl IH]; simpl; [constructor|].
  apply sort_insert_sorted; auto.
  eapply Permutation_Forall; [symmetry; apply Array_sort_Permutation|exact Hl].
Qed.

End SortOrder.

Section DateOrder.
Context {rt : Runtime}.

Lemma time_difference_sign (tx ty : Z) :
  num_pos (num_sub (getTime (Some ty)) (getTime (Some tx))) = (tx <? ty)%Z.
Proof.
  simpl. unfold Qle_bool, Qminus, Qplus, Qopp, inject_Z. simpl.
  destruct (tx <? ty)%Z eqn:E.
  - apply Z.ltb_lt in E. apply negb_true_iff, Z.leb_gt. lia.
  - apply Z.ltb_ge in E. apply negb_false_iff, Z.leb_le. lia.
Qed.

Lemma sortByNewest_sorted (items : list WishlistItem) :
  Forall dated items -> StronglySorted notOlder (sortByNewest items).
Proof.
  apply Array_sort_sorted.
  - intros x y [tx Hx] [ty Hy]. unfold newestFirst, notOlder.
    rewrite Hx, Hy, time_difference_sign. intros E. apply Z.ltb_ge in E. lia.
  - intros x y [tx Hx] [ty Hy]. unfold newestFirst, notOlder.
    rewrite Hx, Hy, time_difference_sign. intros E. apply Z.ltb_lt in E. lia.
  - intros x y z [tx Hx] [ty Hy] [tz Hz]. unfold notOlder.
    rewrite Hx, Hy, Hz. lia.
Qed.

Lemma sortByOldest_sorted (items : list WishlistItem) :
  Forall dated items ->
  StronglySorted (fun a b => notOlder b a) (sortByOldest items).
Proof.
  apply Array_sort_sorted.
  - intros x y [tx Hx] [ty Hy]. unfold oldestFirst, notOlder.
    rewrite Hx, Hy, time_difference_sign. intros E. apply Z.ltb_ge in E. lia.
  - intros x y [tx Hx] [ty Hy]. unfold oldestFirst, notOlder.
    rewrite Hx, Hy, time_difference_sign. intros E. apply Z.ltb_lt in E. lia.
  - intros x y z [tx Hx] [ty Hy] [tz Hz]. unfold notOlder.
    rewrite Hx, Hy, Hz. lia.
Qed.

(** Every entry of the merged map has the [addedAt] of an item that went
    in. *)
Lemma mergedMap_addedAt (A B : list WishlistItem) (e : WishlistItem) :
  In e (Map_values (mergedMap A B)) ->
  exists x, In x (A ++ B) /\ addedAt e = addedAt x.
Proof.
  unfold mergedMap.
  assert (Hc : forall l m,
             (forall e, In e (Map_values m) ->
                        exists x, In x (A ++ B) /\ addedAt e = addedAt x) ->
             (forall x, In x l -> In x (A ++ B)) ->
             forall e, In e (Map_values (fold_left setCustomerItem l m)) ->
                       exists x, In x (A ++ B) /\ addedAt e = addedAt x).
  { induction l as [|y l IH]; intros m Hm Hsub; simpl; [exact Hm|].
    apply IH; [|intros; apply Hsub; now right].
    intros e0 He0. unfold Map_values in He0. apply in_map_iff in He0.
    destruct He0 as ([k v] & <- & Hin). apply Map_set_In in Hin.
    destruct Hin as [[= -> ->]|Hin].
    - exists y. split; [apply Hsub; now left | reflexivity].
    - apply Hm. change v with (snd (k, v)). now apply in_map. }
  assert (Hg : forall l m,
             (forall e, In e (Map_values m) ->
                        exists x, In x (A ++ B) /\ addedAt e = addedAt x) ->
             (forall x, In x l -> In x (A ++ B)) ->
             forall e, In e (Map_values (fold_left mergeGuestItem l m)) ->
                       exists x, In x (A ++ B) /\ addedAt e = addedAt x).
  { induction l as [|y l IH]; intros m Hm Hsub; simpl; [exact Hm|].
    apply IH; [|intros; apply Hsub; now right].
    intros e0 He0. unfold Map_values in He0. apply in_map_iff in He0.
    destruct He0 as ([k v] & <- & Hin). unfold mergeGuestItem in Hin.
    assert (Hold : In (k, v) m -> exists x, In x (A ++ B) /\ addedAt v = addedAt x).
    { intros H. apply Hm. change v with (snd (k, v)). now apply in_map. }
    destruct (Map_get (createItemKey y) m) as [existing|];
      [destruct (date_lt _ _)|]; auto;
      apply Map_set_In in Hin; destruct Hin as [[= -> ->]|Hin]; auto;
      exists y; (split; [apply Hsub; now left | reflexivity]). }
  intros He. eapply Hg; [| |exact He].
  - apply Hc; [intros e0 []|]. intros; apply in_or_app; now right.
  - intros; apply in_or_app; now left.
Qed.

End DateOrder.

(** X6: when every [addedAt] of the two collections parses as a date,
    the merge comes out newest first: no item is older than an item after
    it. *)
Theorem mergeWishlists_newest_first {rt : Runtime} (guestItems customerItems : list WishlistItem) :
  Forall dated (guestItems ++ customerItems) ->
  StronglySorted notOlder (mergeWishlists guestItems customerItems).
Proof.
  intros Hd. unfold mergeWishlists. apply sortByNewest_sorted.
  rewrite Forall_forall in *. intros e He.
  apply mergedMap_addedAt in He. destruct He as (x & Hx & E).
  destruct (Hd x Hx) as [t Ht]. exists t. now rewrite E.
Qed.

(** X7: when every [addedAt] parses, [sortByNewest] puts the items
    newest first and [sortByOldest] oldest first. *)
Theorem date_sorts_ordered {rt : Runtime} (items : list WishlistItem) :
  Forall dated items ->
  StronglySorted notOlder (sortByNewest items) /\
  StronglySorted (fun a b => notOlder b a) (sortByOldest items).
Proof.
  intros H. split; [now apply sortByNewest_sorted | now apply sortByOldest_sorted].
Qed.

(** X8: the five sorted views hold the same items as the collection they
    are given: nothing is dropped, added or repeated. *)
Theorem sorted_views_keep_items {rt : Runtime}
    (localeCompare : string -> string -> JSNumber) (items : list WishlistItem) :
  Permutation (sortByNewest items) items /\
  Permutation (sortByOldest items) items /\
  Permutation (sortByTitle localeCompare items) items /\
  Permutation (sortByPriceLowToHigh items) items /\
  Permutation (sortByPriceHighToLow items) items.
Proof. repeat split; apply Array_sort_Permutation. Qed.

(** ** Merging with nothing, and what a merge brings in *)

Section MergeNew.
Context {rt : Runtime}.

Lemma guest_loop_distinct (items : list WishlistItem) : forall m : JSMap WishlistItem,
  NoDup (Map_keys m ++ map createItemKey items) ->
  fold_left mergeGuestItem items m
  = m ++ map (fun x => (createItemKey x, x)) items.
Proof.
  induction items as [|x items IH]; intros m Hnd; simpl.
  - now rewrite app_nil_r.
  - assert (Hnew : Map_get (createItemKey x) m = None).
    { apply Map_get_absent. apply NoDup_remove_2 in Hnd.
      intros H. apply Hnd, in_or_app. now left. }
    unfold mergeGuestItem at 2. rewrite Hnew, Map_set_new by exact Hnew.
    rewrite IH.
    + now rewrite <- app_assoc.
    + unfold Map_keys. rewrite map_app. simpl. now rewrite <- app_assoc.
Qed.

Lemma keySeen_false (keys : list string) (x : WishlistItem) :
  existsb (String.eqb (createItemKey x)) keys = false
  <-> ~ In (createItemKey x) keys.
Proof.
  rewrite <- (keySeen_In keys x). unfold keySeen.
  destruct (existsb _ keys); intuition congruence.
Qed.

End MergeNew.

(** X9: merging a collection whose keys are all different with the empty
    collection, on either side, only sorts it newest first. *)
Theorem mergeWishlists_with_empty {rt : Runtime} (items : list WishlistItem) :
  NoDup (map createItemKey items) ->
  mergeWishlists items [] = sortByNewest items /\
  mergeWishlists [] items = sortByNewest items.
Proof.
  intros Hnd. unfold mergeWishlists, mergedMap, sortByNewest. simpl. split.
  - rewrite guest_loop_distinct by exact Hnd. simpl.
    unfold Map_values. rewrite map_map. simpl. now rewrite map_id.
  - rewrite customer_loop_distinct by exact Hnd. simpl.
    unfold Map_values. rewrite map_map. simpl. now rewrite map_id.
Qed.

(** X10: after a merge of guest items with distinct keys, the items that
    [findNewItems] reports against the customer's collection are exactly
    the guest items whose key the customer did not have, each as the guest
    had it (key strings standing for one product each). *)
Theorem findNewItems_after_merge {rt : Runtime} (guestItems customerItems : list WishlistItem)
    (x : WishlistItem) :
  keys_name_products (guestItems ++ customerItems) ->
  NoDup (map createItemKey guestItems) ->
  (In x (findNewItems customerItems (mergeWishlists guestItems customerItems))
   <-> In x guestItems
       /\ ~ In (createItemKey x) (map createItemKey customerItems)).
Proof.
  intros HU Hnd.
  destruct (mergedMap_inv guestItems customerItems HU) as [Hf HndM].
  assert (Hguest : forall l, In l guestItems ->
            ~ In (createItemKey l) (map createItemKey customerItems) ->
            Map_get (createItemKey l) (mergedMap guestItems customerItems) = Some l).
  { intros l Hl Hnot. unfold mergedMap.
    rewrite guest_loop_sole with (l := l).
    - rewrite customer_loop_absent; [reflexivity|].
      intros y Hy E. apply Hnot. rewrite <- E. now apply in_map.
    - repeat split; auto. intros y Hy E.
      clear - Hnd Hl Hy E. induction guestItems as [|z zs IH]; [destruct Hl|].
      simpl in Hnd. apply NoDup_cons_iff in Hnd. destruct Hnd as [Hz Hnd].
      destruct Hl as [->|Hl], Hy as [->|Hy]; auto.
      + exfalso. apply Hz. rewrite <- E. now apply in_map.
      + exfalso. apply Hz. rewrite E. now apply in_map. }
  unfold findNewItems. rewrite filter_In, negb_true_iff, keySeen_false.
  split.
  - intros [Hin Hnot]. split; [|exact Hnot].
    unfold mergeWishlists in Hin. apply Array_sort_In in Hin.
    unfold Map_values in Hin. apply in_map_iff in Hin.
    destruct Hin as ([k v] & Hv & Hin). simpl in Hv. subst v.
    destruct (Hf _ _ Hin) as [Hk _].
    assert (Hkeys : In k (map createItemKey (guestItems ++ customerItems))).
    { apply mergedMap_keys. change k with (fst (k, x)). now apply in_map. }
    rewrite map_app, in_app_iff in Hkeys. rewrite Hk in Hnot.
    destruct Hkeys as [Hg|Hc]; [|contradiction].
    apply in_map_iff in Hg. destruct Hg as (l & Hlk & Hl).
    rewrite <- Hlk in Hnot. pose proof (Hguest l Hl Hnot) as Hget.
    rewrite Hlk in Hget. rewrite (In_Map_get _ _ _ HndM Hin) in Hget.
    now injection Hget as ->.
  - intros [Hin Hnot]. split; [|exact Hnot].
    eapply mergedMap_entry_listed. now apply Hguest.
Qed.

(** ** Identifiers *)

Lemma afterLiteral_spec (lit s rest : string) :
  afterLiteral lit s = Some rest <-> s = (lit ++ rest)%string.
Proof.
  revert s. induction lit as [|a lit IH]; intros s; simpl.
  - split; [now intros [= ->] | now intros ->].
  - destruct s as [|b s]; [split; discriminate|].
    destruct (Ascii.eqb a b) eqn:E.
    + apply Ascii.eqb_eq in E. subst b. rewrite IH.
      split; [now intros -> | now intros [= ->]].
    + apply Ascii.eqb_neq in E. split; [discriminate|]. intros [= <- _]. congruence.
Qed.

Lemma oneOrMoreDigits_digitsToEnd (s : string) :
  oneOrMoreDigits s = true -> digitsToEnd s = true.
Proof. destruct s; [discriminate | exact (fun H => H)]. Qed.

Lemma digitsToEnd_slash (p d : string) : digitsToEnd (p ++ String "/" d)%string = false.
Proof.
  induction p as [|c p IH]; simpl; [reflexivity|].
  rewrite IH. apply andb_false_r.
Qed.

Lemma matchSlashDigits_digits (s : string) :
  digitsToEnd s = true -> matchSlashDigits s = None.
Proof.
  induction s as [|c s IH]; simpl; [reflexivity|].
  intros H. apply andb_true_iff in H. destruct H as [Hc Hs].
  destruct (Ascii.eqb c "/") eqn:E; simpl; [|auto].
  apply Ascii.eqb_eq in E. subst c. discriminate Hc.
Qed.

Lemma matchSlashDigits_Some (s d : string) :
  matchSlashDigits s = Some d -> oneOrMoreDigits d = true.
Proof.
  induction s as [|c s IH]; simpl; [discriminate|].
  destruct (Ascii.eqb c "/" && oneOrMoreDigits s) eqn:E; [|exact IH].
  intros [= <-]. now apply andb_true_iff in E.
Qed.

Lemma matchSlashDigits_suffix (p d : string) :
  oneOrMoreDigits d = true -> matchSlashDigits (p ++ String "/" d)%string = Some d.
Proof.
  intros Hd. induction p as [|c p IH]; simpl.
  - now rewrite Hd.
  - replace (oneOrMoreDigits (p ++ String "/" d)%string) with false.
    + now rewrite andb_false_r.
    + symmetry. destruct (oneOrMoreDigits (p ++ String "/" d)%string) eqn:E; [|reflexivity].
      apply oneOrMoreDigits_digitsToEnd in E.
      now rewrite (digitsToEnd_slash p d) in E.
Qed.

Lemma oneOrMoreDigits_nonempty (s : string) :
  oneOrMoreDigits s = true -> String.eqb s "" = false.
Proof. destruct s; [discriminate | reflexivity]. Qed.

(** X11: a bare number passes all three identifier checks, and it is the
    only kind of identifier that passes more than one: a product, variant
    or customer GID passes only its own. *)
Theorem id_validators_overlap (s : string) :
  isValidProductId s && isValidVariantId s = oneOrMoreDigits s /\
  isValidProductId s && isValidCustomerId s = oneOrMoreDigits s /\
  isValidVariantId s && isValidCustomerId s = oneOrMoreDigits s.
Proof.
  unfold isValidProductId, isValidVariantId, isValidCustomerId, literalThenDigits.
  destruct (String.eqb s "") eqn:Es.
  - apply String.eqb_eq in Es. subst s. repeat split.
  - destruct (oneOrMoreDigits s) eqn:Ed.
    + rewrite !orb_true_r. repeat split.
    + rewrite !orb_false_r.
      destruct (afterLiteral "gid://shopify/Product/" s) as [r1|] eqn:E1;
      destruct (afterLiteral "gid://shopify/ProductVariant/" s) as [r2|] eqn:E2;
      destruct (afterLiteral "gid://shopify/Customer/" s) as [r3|] eqn:E3;
      rewrite ?andb_false_r; simpl; repeat split;
      rewrite ?afterLiteral_spec in *; subst s; simpl in *; congruence.
Qed.

Lemma extractNumericId_after_slash (p d : string) :
  oneOrMoreDigits d = true -> extractNumericId (p ++ String "/" d)%string = d.
Proof.
  intros Hd. unfold extractNumericId.
  rewrite (@matchSlashDigits_suffix p d Hd).
  destruct (String.eqb (p ++ String "/" d)%string "") eqn:E; [|reflexivity].
  apply String.eqb_eq in E. destruct p; discriminate E.
Qed.

(** X12: [extractNumericId] returns the digits after the last slash of an
    identifier that ends in a slash and digits, whatever comes before. *)
Theorem extractNumericId_suffix (prefix digits : string) :
  oneOrMoreDigits digits = true ->
  extractNumericId (prefix ++ "/" ++ digits)%string = digits.
Proof.
  intros Hd.
  change (prefix ++ "/" ++ digits)%string with (prefix ++ String "/" digits)%string.
  now apply extractNumericId_after_slash.
Qed.

Lemma extractNumericId_numeric (s : string) :
  oneOrMoreDigits s = true -> extractNumericId s = s.
Proof.
  intros Hd. unfold extractNumericId.
  rewrite (@oneOrMoreDigits_nonempty s Hd).
  now rewrite matchSlashDigits_digits by now apply oneOrMoreDigits_digitsToEnd.
Qed.

(** X13: the numeric part of an identifier that passes any of the three
    checks is a run of digits, and passes all three; extracting again
    changes nothing, for any string. *)
Theorem extractNumericId_of_valid (s : string) :
  (isValidProductId s || isValidVariantId s || isValidCustomerId s = true ->
   oneOrMoreDigits (extractNumericId s) = true /\
   isValidProductId (extractNumericId s) = true /\
   isValidVariantId (extractNumericId s) = true /\
   isValidCustomerId (extractNumericId s) = true) /\
  extractNumericId (extractNumericId s) = extractNumericId s.
Proof.
  assert (Hall : forall d, oneOrMoreDigits d = true ->
            isValidProductId d = true /\ isValidVariantId d = true
            /\ isValidCustomerId d = true).
  { intros d Hd.
    unfold isValidProductId, isValidVariantId, isValidCustomerId.
    rewrite (@oneOrMoreDigits_nonempty d Hd), Hd, !orb_true_r. auto. }
  assert (Hgid : forall lit, literalThenDigits (String.append lit "/") s = true ->
            oneOrMoreDigits (extractNumericId s) = true).
  { intros lit H. unfold literalThenDigits in H.
    destruct (afterLiteral (String.append lit "/") s) as [d|] eqn:E; [|discriminate].
    apply afterLiteral_spec in E. subst s.
    replace ((lit ++ "/") ++ d)%string with (lit ++ String "/" d)%string.
    - now rewrite extractNumericId_after_slash.
    - clear. induction lit; simpl; [reflexivity | now f_equal]. }
  split.
  - intros H.
    assert (Hd : oneOrMoreDigits (extractNumericId s) = true).
    { unfold isValidProductId, isValidVariantId, isValidCustomerId in H.
      destruct (String.eqb s ""); [discriminate|].
      destruct (oneOrMoreDigits s) eqn:Ed;
        [now rewrite extractNumericId_numeric|].
      rewrite !orb_false_r in H.
      apply orb_true_iff in H. destruct H as [H|H];
        [apply orb_true_iff in H; destruct H as [H|H]|].
      - now apply (Hgid "gid://shopify/Product").
      - now apply (Hgid "gid://shopify/ProductVariant").
      - now apply (Hgid "gid://shopify/Customer"). }
    split; [exact Hd | now apply Hall].
  - unfold extractNumericId at 2 3.
    destruct (String.eqb s "") eqn:Es; [reflexivity|].
    destruct (matchSlashDigits s) as [d|] eqn:E; simpl.
    + apply extractNumericId_numeric. eapply matchSlashDigits_Some; eassumption.
    + unfold extractNumericId. now rewrite Es, E.
Qed.

(** ** The store, written and read back *)

Lemma itemJSON_required (item : WishlistItem) :
  prop "productId" (itemJSON item) = Some (JString (productId item)) /\
  prop "productTitle" (itemJSON item) = Some (JString (productTitle item)) /\
  prop "addedAt" (itemJSON item) = Some (JString (addedAt item)).
Proof.
  destruct item as [pid vid ttl hdl vttl img prc added]. unfold itemJSON. simpl.
  destruct vid, hdl, vttl, img, prc; repeat split.
Qed.

(** An item written by the adapter passes the validation of the
    next load exactly when its [productId], [productTitle] and [addedAt]
    are not empty. *)
Theorem itemJSON_valid (item : WishlistItem) :
  isValidWishlistItem (itemJSON item) = complete item.
Proof.
  destruct (itemJSON_required item) as (Hp & Ht & Ha).
  unfold isValidWishlistItem, complete. rewrite Hp, Ht, Ha. simpl.
  destruct (String.eqb (productId item) ""), (String.eqb (productTitle item) ""),
    (String.eqb (addedAt item) ""); reflexivity.
Qed.

Lemma getStoredItems_written (items : list JSON) (ls : LocalStorage) :
  available ls = true -> getItemThrows ls = false -> setItemThrows ls = false ->
  getStoredItems (setStoredItems items ls) = filter isValidWishlistItem items.
Proof.
  intros Ha Hg Hs. unfold setStoredItems, getStoredItems, isStorageAvailable.
  rewrite Ha, Hs. simpl. now rewrite ?Ha, ?Hg.
Qed.

(** X15: with a working store, what [setStoredItems] writes is what
    [getStoredItems] reads back, in the same order, less the items with an
    empty required string. *)
Theorem stored_items_round_trip (items : list WishlistItem) (ls : LocalStorage) :
  works ls ->
  getStoredItems (setStoredItems (map itemJSON items) ls)
  = map itemJSON (filter complete items).
Proof.
  intros (Ha & Hg & Hs). rewrite getStoredItems_written by assumption.
  induction items as [|x items IH]; simpl; [reflexivity|].
  rewrite itemJSON_valid, IH. now destruct (complete x).
Qed.

Lemma getStoredItems_cleared (ls : LocalStorage) :
  getStoredItems (clearStoredItems ls) = [].
Proof.
  unfold clearStoredItems, getStoredItems, isStorageAvailable.
  destruct (available ls) eqn:Ha; simpl; rewrite ?Ha; simpl; [|reflexivity].
  now destruct (getItemThrows ls).
Qed.

Lemma getLastSyncTimestamp_cleared (ls : LocalStorage) :
  getLastSyncTimestamp (clearStoredItems ls) = None.
Proof.
  unfold clearStoredItems, getLastSyncTimestamp, isStorageAvailable.
  destruct (available ls) eqn:Ha; simpl; rewrite ?Ha; simpl; [|reflexivity].
  now destruct (getItemThrows ls).
Qed.

(** X16: after [clearStoredItems] nothing is stored, whatever the state
    of the store: no items, no sync marker ([removeItem] is taken not to
    throw once the store is available). *)
Theorem clearStoredItems_empties (ls : LocalStorage) :
  getStoredItems (clearStoredItems ls) = [] /\
  getLastSyncTimestamp (clearStoredItems ls) = None /\
  (forall pid vid, isItemStored pid vid (clearStoredItems ls) = false).
Proof.
  split; [apply getStoredItems_cleared|].
  split; [apply getLastSyncTimestamp_cleared|].
  intros pid vid. unfold isItemStored. now rewrite getStoredItems_cleared.
Qed.

(** X17: with a working store the sync marker written is the one read
    back; writing the marker never changes the stored items, and writing
    the items never changes the marker. *)
Theorem sync_marker_round_trip (ls : LocalStorage) (timestamp : string)
    (items : list JSON) :
  (works ls -> getLastSyncTimestamp (setLastSyncTimestamp timestamp ls)
               = Some timestamp) /\
  getStoredItems (setLastSyncTimestamp timestamp ls) = getStoredItems ls /\
  getLastSyncTimestamp (setStoredItems items ls) = getLastSyncTimestamp ls.
Proof.
  split; [|split].
  - intros (Ha & Hg & Hs).
    unfold setLastSyncTimestamp, getLastSyncTimestamp, isStorageAvailable.
    rewrite Ha, Hs. simpl. now rewrite ?Ha, ?Hg.
  - unfold setLastSyncTimestamp, getStoredItems, isStorageAvailable.
    destruct (available ls) eqn:Ha; simpl; rewrite ?Ha; [|reflexivity].
    destruct (setItemThrows ls); simpl; rewrite ?Ha; reflexivity.
  - unfold setStoredItems, getLastSyncTimestamp, isStorageAvailable.
    destruct (available ls) eqn:Ha; simpl; rewrite ?Ha; [|reflexivity].
    destruct (setItemThrows ls); simpl; rewrite ?Ha; reflexivity.
Qed.

Lemma setStoredItems_twice (items : list JSON) (ls : LocalStorage) :
  setStoredItems items (setStoredItems items ls) = setStoredItems items ls.
Proof.
  unfold setStoredItems, isStorageAvailable.
  destruct (available ls) eqn:Ha; simpl; rewrite ?Ha; simpl; [|reflexivity].
  destruct (setItemThrows ls) eqn:Hs; simpl; rewrite ?Ha, ?Hs; reflexivity.
Qed.

Lemma storedMatches_itemJSON (item : WishlistItem) :
  storedMatches (productId item) (read (variantId item)) (itemJSON item) = true.
Proof. apply storedMatches_identity, identity_itemJSON. Qed.

Lemma setStoredItems_flags (items : list JSON) (ls : LocalStorage) :
  available (setStoredItems items ls) = available ls /\
  getItemThrows (setStoredItems items ls) = getItemThrows ls /\
  setItemThrows (setStoredItems items ls) = setItemThrows ls.
Proof.
  unfold setStoredItems, isStorageAvailable.
  destruct (available ls) eqn:Ha; simpl; rewrite ?Ha; auto.
  destruct (setItemThrows ls) eqn:Hs; simpl; rewrite ?Ha, ?Hs; auto.
Qed.

Lemma getStoredItems_unreadable (ls : LocalStorage) :
  available ls = false \/ getItemThrows ls = true -> getStoredItems ls = [].
Proof.
  unfold getStoredItems, isStorageAvailable.
  intros [H|H]; rewrite H; [reflexivity | now destruct (available ls)].
Qed.

(** What the store holds after [addStoredItem] of an item that was not
    there. *)
Lemma getStoredItems_added (item : WishlistItem) (ls : LocalStorage) :
  works ls ->
  existsb (storedMatches (productId item) (read (variantId item)))
          (getStoredItems ls) = false ->
  getStoredItems (snd (addStoredItem item ls))
  = getStoredItems ls ++ (if complete item then [itemJSON item] else []).
Proof.
  intros (Ha & Hg & Hs) Hnew. unfold addStoredItem. rewrite Hnew. simpl.
  rewrite getStoredItems_written by assumption.
  rewrite filter_app, getStoredItems_valid. simpl.
  now rewrite itemJSON_valid.
Qed.

(** X18: adding the same item to the store twice is adding it once: the
    second call returns the same list and leaves the same store, whatever
    the state of the store. *)
Theorem addStoredItem_idempotent (item : WishlistItem) (ls : LocalStorage) :
  addStoredItem item (snd (addStoredItem item ls)) = addStoredItem item ls.
Proof.
  destruct (existsb (storedMatches (productId item) (read (variantId item)))
                    (getStoredItems ls)) eqn:E.
  - unfold addStoredItem at 2 3. rewrite E. simpl.
    unfold addStoredItem. now rewrite E.
  - destruct (available ls) eqn:Ha; [destruct (setItemThrows ls) eqn:Hs|].
    + assert (Hsame : snd (addStoredItem item ls) = ls).
      { unfold addStoredItem, setStoredItems, isStorageAvailable.
        rewrite E, Ha, Hs. reflexivity. }
      now rewrite Hsame.
    + destruct (getItemThrows ls) eqn:Hg.
      * assert (Hnone : forall l, getStoredItems (setStoredItems l ls) = []).
        { intros l. apply getStoredItems_unreadable. right.
          now rewrite (proj1 (proj2 (setStoredItems_flags l ls))). }
        assert (H0 : getStoredItems ls = [])
          by (apply getStoredItems_unreadable; now right).
        unfold addStoredItem. rewrite H0. simpl. rewrite Hnone. simpl.
        now rewrite setStoredItems_twice.
      * pose proof (getStoredItems_added item (conj Ha (conj Hg Hs)) E) as Hread.
        unfold addStoredItem at 1. rewrite Hread.
        unfold addStoredItem. rewrite E. simpl.
        destruct (complete item) eqn:Hc.
        -- rewrite existsb_app. simpl. rewrite storedMatches_itemJSON.
           now rewrite orb_true_r.
        -- rewrite app_nil_r, E. now rewrite setStoredItems_twice.
    + assert (Hsame : snd (addStoredItem item ls) = ls).
      { unfold addStoredItem, setStoredItems, isStorageAvailable.
        rewrite E, Ha. reflexivity. }
      now rewrite Hsame.
Qed.

Lemma isItemStored_added (item : WishlistItem) (ls : LocalStorage) :
  works ls -> complete item = true ->
  isItemStored (productId item) (read (variantId item)) (snd (addStoredItem item ls))
  = true.
Proof.
  intros Hw Hc. unfold isItemStored.
  destruct (existsb (storedMatches (productId item) (read (variantId item)))
                    (getStoredItems ls)) eqn:E.
  - unfold addStoredItem. now rewrite E.
  - rewrite getStoredItems_added by assumption.
    rewrite existsb_app, Hc. simpl. rewrite storedMatches_itemJSON.
    apply orb_true_r.
Qed.

(** X19: with a working store, an item is stored after [addStoredItem]
    exactly when it was stored before or its required strings are not
    empty: an item with an empty title is written and never read back. *)
Theorem isItemStored_after_add (item : WishlistItem) (ls : LocalStorage) :
  works ls ->
  isItemStored (productId item) (read (variantId item)) (snd (addStoredItem item ls))
  = isItemStored (productId item) (read (variantId item)) ls || complete item.
Proof.
  intros (Ha & Hg & Hs). unfold isItemStored.
  destruct (existsb (storedMatches (productId item) (read (variantId item)))
                    (getStoredItems ls)) eqn:E.
  - unfold addStoredItem. rewrite E. simpl. exact E.
  - rewrite getStoredItems_added by (unfold works; auto).
    rewrite existsb_app, E. simpl.
    destruct (complete item); simpl; [|reflexivity].
    now rewrite storedMatches_itemJSON.
Qed.

Lemma getStoredItems_removed (pid : string) (vid : option string)
    (ls : LocalStorage) :
  setItemThrows ls = false ->
  getStoredItems (snd (removeStoredItem pid vid ls))
  = filter (fun item => negb (storedMatches pid vid item)) (getStoredItems ls).
Proof.
  intros Hs. unfold removeStoredItem. simpl.
  destruct (available ls) eqn:Ha.
  - destruct (getItemThrows ls) eqn:Hg.
    + unfold setStoredItems, getStoredItems, isStorageAvailable.
      rewrite Ha, Hs, Hg. simpl. now rewrite ?Ha, ?Hg.
    + rewrite getStoredItems_written by assumption.
      apply forallb_filter_id, forallb_forall. intros r Hr.
      apply filter_In in Hr. destruct Hr as [Hr _].
      rewrite <- getStoredItems_valid in Hr. now apply filter_In in Hr.
  - unfold setStoredItems, getStoredItems, isStorageAvailable.
    rewrite Ha. simpl. now rewrite ?Ha.
Qed.

Lemma existsb_after_filter A (p : A -> bool) (l : list A) :
  existsb p (filter (fun x => negb (p x)) l) = false.
Proof.
  destruct (existsb p _) eqn:E; [|reflexivity].
  apply existsb_exists in E. destruct E as (r & Hr & Hm).
  apply filter_In in Hr. destruct Hr as [_ Hr]. now rewrite Hm in Hr.
Qed.

(** X20: when writes go through, the store after [removeStoredItem]
    holds the items it held before without those of the given product and
    variant, so the item is no longer stored. *)
Theorem removeStoredItem_stored (pid : string) (vid : option string)
    (ls : LocalStorage) :
  setItemThrows ls = false ->
  getStoredItems (snd (removeStoredItem pid vid ls))
  = filter (fun item => negb (storedMatches pid vid item)) (getStoredItems ls)
  /\ isItemStored pid vid (snd (removeStoredItem pid vid ls)) = false.
Proof.
  intros Hs. split; [now apply getStoredItems_removed|].
  unfold isItemStored. rewrite getStoredItems_removed by exact Hs.
  apply existsb_after_filter.
Qed.

(** X21: adding an item that was not stored and removing it again leaves
    the stored collection as it was. *)
Theorem add_then_remove_stored (item : WishlistItem) (ls : LocalStorage) :
  setItemThrows ls = false ->
  isItemStored (productId item) (read (variantId item)) ls = false ->
  getStoredItems
    (snd (removeStoredItem (productId item) (read (variantId item))
            (snd (addStoredItem item ls))))
  = getStoredItems ls.
Proof.
  intros Hs Hnew. unfold isItemStored in Hnew.
  assert (Hflags : available (snd (addStoredItem item ls)) = available ls /\
                   getItemThrows (snd (addStoredItem item ls)) = getItemThrows ls /\
                   setItemThrows (snd (addStoredItem item ls)) = setItemThrows ls).
  { unfold addStoredItem. rewrite Hnew. simpl. apply setStoredItems_flags. }
  destruct Hflags as (Fa & Fg & Fs).
  assert (Hs' : setItemThrows (snd (addStoredItem item ls)) = false)
    by now rewrite Fs.
  rewrite getStoredItems_removed by exact Hs'.
  destruct (available ls) eqn:Ha; [destruct (getItemThrows ls) eqn:Hg|].
  - rewrite (getStoredItems_unreadable (snd (addStoredItem item ls)))
      by (right; now rewrite Fg).
    symmetry. apply getStoredItems_unreadable. now right.
  - rewrite getStoredItems_added by (unfold works; auto).
    rewrite filter_app.
    assert (Hkeep : filter (fun r => negb (storedMatches (productId item)
                                             (read (variantId item)) r))
                           (getStoredItems ls) = getStoredItems ls).
    { apply forallb_filter_id, forallb_forall. intros r Hr.
      apply negb_true_iff.
      destruct (storedMatches _ _ r) eqn:Em; [|reflexivity].
      assert (existsb (storedMatches (productId item) (read (variantId item)))
                      (getStoredItems ls) = true)
        by (apply existsb_exists; eauto).
      congruence. }
    rewrite Hkeep. destruct (complete item); simpl;
      rewrite ?storedMatches_itemJSON; simpl; now rewrite app_nil_r.
  - rewrite (getStoredItems_unreadable (snd (addStoredItem item ls)))
      by (left; now rewrite Fa).
    symmetry. apply getStoredItems_unreadable. now left.
Qed.

(** X22: when the store is unavailable or its writes throw, the adapter
    leaves it as it is and says nothing: [addStoredItem] still returns a
    list that ends with the item, and [removeStoredItem] a list without
    it, while the store is unchanged. *)
Theorem silent_when_not_writable (item : WishlistItem) (pid : string)
    (vid : option string) (timestamp : string) (ls : LocalStorage) :
  available ls = false \/ setItemThrows ls = true ->
  snd (addStoredItem item ls) = ls /\
  snd (removeStoredItem pid vid ls) = ls /\
  setLastSyncTimestamp timestamp ls = ls /\
  (isItemStored (productId item) (read (variantId item)) ls = false ->
   fst (addStoredItem item ls) = getStoredItems ls ++ [itemJSON item]) /\
  existsb (storedMatches pid vid) (fst (removeStoredItem pid vid ls)) = false.
Proof.
  intros H.
  assert (Hset : forall l, setStoredItems l ls = ls).
  { intros l. unfold setStoredItems, isStorageAvailable.
    destruct H as [Ha|Hs]; [now rewrite Ha|].
    rewrite Hs. now destruct (available ls). }
  split; [|split; [|split; [|split]]].
  - unfold addStoredItem. destruct (existsb _ _); simpl; auto.
  - unfold removeStoredItem. simpl. apply Hset.
  - unfold setLastSyncTimestamp, isStorageAvailable.
    destruct H as [Ha|Hs]; [now rewrite Ha|].
    rewrite Hs. now destruct (available ls).
  - unfold isItemStored, addStoredItem. intros E. now rewrite E.
  - unfold removeStoredItem. simpl.
    destruct (existsb _ _) eqn:E; [|reflexivity].
    apply existsb_exists in E. destruct E as (r & Hr & Hm).
    apply filter_In in Hr. destruct Hr as [_ Hr]. now rewrite Hm in Hr.
Qed.

(** ** The provider's operations *)

Lemma matches_identity (pid : string) (vid : option string) (x : WishlistItem) :
  matches pid vid x = true <-> itemIdentity x = (pid, vid).
Proof.
  unfold matches, itemIdentity, strict_eq. split.
  - intros H. apply andb_true_iff in H. destruct H as [Hp Hv].
    apply String.eqb_eq in Hp. subst pid.
    destruct (read (variantId x)) as [a|], vid as [b|]; try discriminate;
      [apply String.eqb_eq in Hv; now subst | reflexivity].
  - intros [= <- <-]. rewrite String.eqb_refl. simpl.
    destruct (read (variantId x)); [apply String.eqb_refl | reflexivity].
Qed.

Lemma optimistic_NoDup (item : WishlistItem) (prev : list WishlistItem) :
  NoDup (map itemIdentity prev) ->
  NoDup (map itemIdentity
           (if existsb (matches (productId item) (read (variantId item))) prev
            then prev else item :: prev)).
Proof.
  intros Hnd. destruct (existsb _ prev) eqn:E; [exact Hnd|].
  simpl. constructor; [|exact Hnd].
  rewrite in_map_iff. intros (y & Hy & Hin).
  assert (existsb (matches (productId item) (read (variantId item))) prev = true).
  { apply existsb_exists. exists y. split; [exact Hin|].
    now apply matches_identity. }
  congruence.
Qed.

Lemma add_items (config : WishBridgeConfig) (product : ProductInfo) (now : string)
    (fetched : Fetched) (s : WishlistState) (ls : LocalStorage) :
  let item := newItem product now in
  let optimistic :=
    if existsb (matches (productId item) (read (variantId item))) (items s)
    then items s else item :: items s in
  items (fst (add config product now fetched (s, ls))) = optimistic
  \/ items (fst (add config product now fetched (s, ls))) = rollback item optimistic.
Proof.
  intros item optimistic. unfold add.
  destruct (isGuest config && enableGuestWishlist_ config); [now left|].
  destruct (negb (isGuest config) && given (apiKey config)); [|now left].
  destruct fetched as [|status [result|]]; [now right| |now right].
  destruct (negb (ok status) || negb (success result)); [now right | now left].
Qed.

Lemma remove_items (config : WishBridgeConfig) (pid : string) (vid : option string)
    (fetched : Fetched) (s : WishlistState) (ls : LocalStorage) :
  items (fst (remove config pid vid fetched (s, ls)))
  = filter (fun item => negb (matches pid vid item)) (items s).
Proof.
  unfold remove.
  destruct (isGuest config && enableGuestWishlist_ config); [reflexivity|].
  destruct (negb (isGuest config) && given (apiKey config)); [|reflexivity].
  destruct fetched as [|status [result|]]; try reflexivity.
  now destruct (negb (ok status) || negb (success result)).
Qed.

(** X23: the items in memory stay distinct: when no two of them have the
    same [productId] and [variantId], that is still so after [add],
    [remove], [toggle] and [clear], in guest and in customer mode and
    whatever the remote call comes to. *)
Theorem memory_identities_stay_distinct (config : WishBridgeConfig)
    (product : ProductInfo) (now : string) (pid : string) (vid : option string)
    (fetched : Fetched) (s : WishlistState) (ls : LocalStorage) :
  NoDup (map itemIdentity (items s)) ->
  NoDup (map itemIdentity (items (fst (add config product now fetched (s, ls))))) /\
  NoDup (map itemIdentity (items (fst (remove config pid vid fetched (s, ls))))) /\
  NoDup (map itemIdentity (items (fst (toggle config product now fetched (s, ls))))) /\
  NoDup (map itemIdentity (items (fst (clear config (s, ls))))).
Proof.
  intros Hnd.
  assert (Hadd : NoDup (map itemIdentity
                          (items (fst (add config product now fetched (s, ls)))))).
  { destruct (add_items config product now fetched s ls) as [E|E]; rewrite E.
    - now apply optimistic_NoDup.
    - unfold rollback. apply NoDup_map_filter. now apply optimistic_NoDup. }
  assert (Hrem : forall p v,
            NoDup (map itemIdentity
                     (items (fst (remove config p v fetched (s, ls)))))).
  { intros p v. rewrite remove_items. now apply NoDup_map_filter. }
  split; [exact Hadd|]. split; [apply Hrem|]. split.
  - unfold toggle. simpl. destruct (existsb _ (items s)); [apply Hrem | exact Hadd].
  - unfold clear. destruct (isGuest config && enableGuestWishlist_ config);
      simpl; constructor.
Qed.

(** X24: for a customer the provider never writes the local store:
    [add], [remove], [toggle] and [clear] leave it as it is. *)
Theorem customer_leaves_store (config : WishBridgeConfig) (product : ProductInfo)
    (now : string) (pid : string) (vid : option string) (fetched : Fetched)
    (w : WishlistState * LocalStorage) :
  isGuest config = false ->
  snd (add config product now fetched w) = snd w /\
  snd (remove config pid vid fetched w) = snd w /\
  snd (toggle config product now fetched w) = snd w /\
  snd (clear config w) = snd w.
Proof.
  intros Hg. destruct w as [s ls].
  assert (Hadd : snd (add config product now fetched (s, ls)) = ls).
  { unfold add. rewrite Hg. simpl.
    destruct (given (apiKey config)); [|reflexivity].
    destruct fetched as [|status [result|]]; try reflexivity.
    now destruct (negb (ok status) || negb (success result)). }
  assert (Hrem : forall p v, snd (remove config p v fetched (s, ls)) = ls).
  { intros p v. unfold remove. rewrite Hg. simpl.
    destruct (given (apiKey config)); [|reflexivity].
    destruct fetched as [|status [result|]]; try reflexivity.
    now destruct (negb (ok status) || negb (success result)). }
  split; [exact Hadd|]. split; [apply Hrem|]. split.
  - unfold toggle. simpl. destruct (existsb _ (items s)); [apply Hrem | exact Hadd].
  - unfold clear. now rewrite Hg.
Qed.

(** X25: for a guest the remote call plays no part: [loadItems], [add],
    [remove], [toggle] and [sync] give the same result whatever the
    request would have come to. *)
Theorem guest_never_calls (config : WishBridgeConfig) (product : ProductInfo)
    (now : string) (pid : string) (vid : option string) (f1 f2 : Fetched)
    (w : WishlistState * LocalStorage) :
  isGuest config = true ->
  loadItems config f1 w = loadItems config f2 w /\
  add config product now f1 w = add config product now f2 w /\
  remove config pid vid f1 w = remove config pid vid f2 w /\
  toggle config product now f1 w = toggle config product now f2 w /\
  sync config f1 w = sync config f2 w /\
  sync config f1 w = w.
Proof.
  intros Hg. destruct w as [s ls].
  assert (Hadd : add config product now f1 (s, ls) = add config product now f2 (s, ls)).
  { unfold add. rewrite Hg. simpl. now destruct (enableGuestWishlist_ config). }
  assert (Hrem : forall p v,
            remove config p v f1 (s, ls) = remove config p v f2 (s, ls)).
  { intros p v. unfold remove. rewrite Hg. simpl.
    now destruct (enableGuestWishlist_ config). }
  assert (Hsync : forall f, sync config f (s, ls) = (s, ls)).
  { intros f. unfold sync, syncWishlist. unfold isGuest in Hg.
    apply negb_true_iff in Hg. now rewrite Hg. }
  split; [|split; [exact Hadd|split; [apply Hrem|split; [|split]]]].
  - unfold loadItems. rewrite Hg. simpl. now destruct (enableGuestWishlist_ config).
  - unfold toggle. simpl. destruct (existsb _ (items s)); [apply Hrem | exact Hadd].
  - now rewrite !Hsync.
  - apply Hsync.
Qed.

(** X26: adding a product that is already in memory changes nothing in
    memory, as long as the remote call does not fail. *)
Theorem add_present_is_noop (config : WishBridgeConfig) (product : ProductInfo)
    (now : string) (fetched : Fetched) (s : WishlistState) (ls : LocalStorage) :
  isWishlisted s (id product) (read (pVariantId product)) = true ->
  callFailed fetched = false ->
  items (fst (add config product now fetched (s, ls))) = items s.
Proof.
  unfold isWishlisted. intros Hin Hok. unfold add.
  destruct (isGuest config && enableGuestWishlist_ config);
    [|destruct (negb (isGuest config) && given (apiKey config));
      [destruct fetched as [|status [result|]]; try discriminate Hok;
       cbn [callFailed] in Hok; rewrite Hok|]];
    cbn [fst items setItems productId variantId newItem];
    now rewrite read_own, Hin.
Qed.

(** X27: toggling a product that is not in memory twice, each time
    from the provider's current state, gives the items in memory back as
    they were, when the first call does not fail (whatever the second
    comes to). *)
Theorem toggle_twice (config : WishBridgeConfig) (product : ProductInfo)
    (now1 now2 : string) (f1 f2 : Fetched) (s : WishlistState) (ls : LocalStorage) :
  isWishlisted s (id product) (read (pVariantId product)) = false ->
  callFailed f1 = false ->
  items (fst (toggle config product now2 f2
                (toggle config product now1 f1 (s, ls))))
  = items s.
Proof.
  unfold isWishlisted. intros Hnew Hok.
  assert (Hfirst : items (fst (toggle config product now1 f1 (s, ls)))
                   = newItem product now1 :: items s).
  { unfold toggle. cbn [fst]. rewrite Hnew. unfold add.
    destruct (isGuest config && enableGuestWishlist_ config);
      [|destruct (negb (isGuest config) && given (apiKey config));
        [destruct f1 as [|status [result|]]; try discriminate Hok;
         cbn [callFailed] in Hok; rewrite Hok|]];
      cbn [fst items setItems productId variantId newItem];
      now rewrite read_own, Hnew. }
  destruct (toggle config product now1 f1 (s, ls)) as [s1 ls1] eqn:E1.
  cbn [fst] in Hfirst. unfold toggle. cbn [fst]. rewrite Hfirst.
  assert (Hm : matches (id product) (read (pVariantId product)) (newItem product now1)
               = true).
  { apply matches_identity. unfold itemIdentity. simpl. now rewrite read_own. }
  cbn [existsb]. rewrite Hm. cbn [orb].
  rewrite remove_items, Hfirst. cbn [filter]. rewrite Hm. cbn [negb].
  apply forallb_filter_id, forallb_forall. intros x Hx.
  apply negb_true_iff.
  destruct (matches (id product) (read (pVariantId product)) x) eqn:Em;
    [|reflexivity].
  assert (existsb (matches (id product) (read (pVariantId product))) (items s) = true)
    by (apply existsb_exists; eauto).
  congruence.
Qed.

Lemma ok_not_429 (status : Z) : ok status = true -> (status =? 429)%Z = false.
Proof.
  unfold ok. intros H. apply andb_true_iff in H. destruct H as [_ H].
  apply Z.leb_le in H. apply Z.eqb_neq. lia.
Qed.

(** X28: when a customer's sync succeeds, the items in memory become
    the items of the response and the local store is cleared; a response
    without items leaves both as they were.  Either way no error is left
    and the syncing flag is down. *)
Theorem sync_succeeded (config : WishBridgeConfig) (fetched : Fetched)
    (result : WishlistResponse) (s : WishlistState) (ls : LocalStorage) :
  isGuest config = false -> given (apiKey config) = true ->
  succeeded fetched result ->
  items (fst (sync config fetched (s, ls))) = (rItems result ?? items s) /\
  snd (sync config fetched (s, ls))
  = match rItems result with Some _ => clearStoredItems ls | None => ls end /\
  error (fst (sync config fetched (s, ls))) = None /\
  isSyncing (fst (sync config fetched (s, ls))) = false.
Proof.
  intros Hg Hkey (status & -> & Hok & Hs).
  unfold sync, syncWishlist. unfold isGuest in Hg. apply negb_false_iff in Hg.
  rewrite Hg, Hkey, (ok_not_429 _ Hok), Hok, Hs. simpl.
  destruct (rItems result); repeat split.
Qed.

(** X29: a provider that loads for a customer with stored guest items
    and auto-merge on, and whose sync succeeds with the merged items,
    ends with those items in memory, nothing in the local store, no error
    and no flag up. *)
Theorem loadItems_merged (config : WishBridgeConfig) (fetched : Fetched)
    (result : WishlistResponse) (merged : list WishlistItem)
    (s : WishlistState) (ls : LocalStorage) :
  isGuest config = false -> given (apiKey config) = true ->
  getStoredItems ls <> [] -> enableAutoMerge_ config = true ->
  succeeded fetched result -> rItems result = Some merged ->
  items (fst (loadItems config fetched (s, ls))) = merged /\
  getStoredItems (snd (loadItems config fetched (s, ls))) = [] /\
  getLastSyncTimestamp (snd (loadItems config fetched (s, ls))) = None /\
  error (fst (loadItems config fetched (s, ls))) = None /\
  isLoading (fst (loadItems config fetched (s, ls))) = false /\
  isSyncing (fst (loadItems config fetched (s, ls))) = false.
Proof.
  intros Hg Hkey Hstored Hmerge (status & -> & Hok & Hs) Hitems.
  unfold loadItems, syncWishlist. rewrite Hg, Hmerge. simpl.
  destruct (getStoredItems ls) as [|r rest] eqn:E; [congruence|]. simpl.
  unfold isGuest in Hg. apply negb_false_iff in Hg.
  rewrite Hg, Hkey, (ok_not_429 _ Hok), Hok, Hs, Hitems. simpl.
  rewrite getStoredItems_cleared, getLastSyncTimestamp_cleared. repeat split.
Qed.

(** X30: a guest's [add] puts the product in memory and, when the store
    works and the product's id and title and the time are not empty, in
    the store; a guest's [remove] takes it out of both; [clear] empties
    both. *)
Theorem guest_memory_and_store (config : WishBridgeConfig) (product : ProductInfo)
    (now : string) (fetched : Fetched) (s : WishlistState) (ls : LocalStorage) :
  isGuest config = true -> enableGuestWishlist_ config = true ->
  works ls -> complete (newItem product now) = true ->
  let pid := id product in
  let vid := read (pVariantId product) in
  (isWishlisted (fst (add config product now fetched (s, ls))) pid vid = true /\
   isItemStored pid vid (snd (add config product now fetched (s, ls))) = true) /\
  (isWishlisted (fst (remove config pid vid fetched (s, ls))) pid vid = false /\
   isItemStored pid vid (snd (remove config pid vid fetched (s, ls))) = false) /\
  (items (fst (clear config (s, ls))) = [] /\
   getStoredItems (snd (clear config (s, ls))) = []).
Proof.
  intros Hg He Hw Hc pid vid. subst pid vid.
  assert (Hm : matches (id product) (read (pVariantId product))
                 (newItem product now) = true).
  { apply matches_identity. unfold itemIdentity. simpl. now rewrite read_own. }
  split; [|split].
  - unfold add. rewrite Hg, He. cbn [andb fst snd]. split.
    + unfold isWishlisted. cbn [items setItems productId variantId newItem].
      rewrite read_own.
      destruct (existsb (matches (id product) (read (pVariantId product)))
                        (items s)) eqn:E; [exact E|].
      cbn [existsb]. now rewrite Hm.
    + pose proof (isItemStored_added (newItem product now) Hw Hc) as H.
      cbn [productId variantId newItem] in H. now rewrite read_own in H.
  - split.
    + unfold isWishlisted. rewrite remove_items.
      destruct (existsb _ _) eqn:E; [|reflexivity].
      apply existsb_exists in E. destruct E as (x & Hx & Hmx).
      apply filter_In in Hx. destruct Hx as [_ Hx]. now rewrite Hmx in Hx.
    + unfold remove. rewrite Hg, He. cbn [andb snd].
      unfold isItemStored. rewrite getStoredItems_removed by apply Hw.
      apply existsb_after_filter.
  - unfold clear. rewrite Hg, He. cbn [andb fst snd items setItems].
    split; [reflexivity | apply getStoredItems_cleared].
Qed.

(** X14: when every amount parses to a number below infinity,
    [sortByPriceLowToHigh] puts the priced items first and the items
    without a price last; [sortByPriceHighToLow] does so when every
    amount parses to a number above zero. *)
Theorem price_sorts_unpriced_last {rt : Runtime} (items : list WishlistItem) :
  (Forall (fun x => pricedWith belowInfinity x \/ noPrice x) items ->
   exists ps us,
     sortByPriceLowToHigh items = ps ++ us
     /\ Forall (pricedWith belowInfinity) ps /\ Forall noPrice us) /\
  (Forall (fun x => pricedWith aboveZero x \/ noPrice x) items ->
   exists ps us,
     sortByPriceHighToLow items = ps ++ us
     /\ Forall (pricedWith aboveZero) ps /\ Forall noPrice us).
Proof.
  split; [apply sortByPriceLowToHigh_unpriced_last
         | apply sortByPriceHighToLow_unpriced_last].
Qed.

(** ** The further properties at work *)

Lemma mergeWishlists_one_sided_witness :
  Map_get "p1:default" (mergedMap [guestP1] [customerP2]) = Some guestP1 /\
  In guestP1 (mergeWishlists [guestP1] [customerP2]).
Proof.
  apply (@mergeWishlists_one_sided Reference.runtime
           [guestP1] [customerP2] "p1:default" guestP1).
  left. split; [solve_sole|].
  intros y [<-|[]]. discriminate.
Defined.

Lemma mergeWishlists_newest_first_witness :
  StronglySorted notOlder (mergeWishlists [guestP1] [customerP1; customerP2]).
Proof.
  apply (@mergeWishlists_newest_first Reference.runtime
           [guestP1] [customerP1; customerP2]).
  solve_dated.
Defined.

Lemma date_sorts_ordered_witness :
  StronglySorted notOlder (sortByNewest [customerP2; guestP1; customerP1]) /\
  StronglySorted (fun a b => notOlder b a)
    (sortByOldest [customerP2; guestP1; customerP1]).
Proof.
  apply (@date_sorts_ordered Reference.runtime [customerP2; guestP1; customerP1]).
  solve_dated.
Defined.

Lemma mergeWishlists_with_empty_witness :
  mergeWishlists [customerP2; customerP1] [] = sortByNewest [customerP2; customerP1] /\
  mergeWishlists [] [customerP2; customerP1] = sortByNewest [customerP2; customerP1].
Proof.
  apply (@mergeWishlists_with_empty Reference.runtime [customerP2; customerP1]).
  solve_distinct.
Defined.

Lemma findNewItems_after_merge_witness :
  In customerP2
     (findNewItems [customerP1] (mergeWishlists [guestP1; customerP2] [customerP1]))
  <-> In customerP2 [guestP1; customerP2]
      /\ ~ In (createItemKey customerP2) (map createItemKey [customerP1]).
Proof.
  apply (@findNewItems_after_merge Reference.runtime
           [guestP1; customerP2] [customerP1] customerP2).
  - solve_keys_name_products.
  - solve_distinct.
Defined.

Lemma extractNumericId_suffix_witness :
  extractNumericId ("gid://shopify/Product" ++ "/" ++ "123456789")%string
  = "123456789".
Proof.
  apply (@extractNumericId_suffix "gid://shopify/Product" "123456789").
  reflexivity.
Defined.

Lemma price_sorts_unpriced_last_witness :
  exists ps us,
    sortByPriceHighToLow [unpriced "p1"; priced "p2" "10.00"; priced "p3" "30.00"]
    = ps ++ us
    /\ Forall (pricedWith aboveZero) ps /\ Forall noPrice us.
Proof.
  apply (proj2 (@price_sorts_unpriced_last Reference.runtime
                  [unpriced "p1"; priced "p2" "10.00"; priced "p3" "30.00"])).
  apply Forall_cons; [right; reflexivity|].
  apply Forall_cons; [left; eexists; split; reflexivity|].
  apply Forall_cons; [left; eexists; split; reflexivity|].
  apply Forall_nil.
Defined.

Lemma works_storeWith (text : option StoredText) : works (storeWith text).
Proof. repeat split. Defined.

Lemma stored_items_round_trip_witness :
  getStoredItems
    (setStoredItems (map itemJSON [guestP1; untitledP3; customerP2]) (storeWith None))
  = map itemJSON (filter complete [guestP1; untitledP3; customerP2]).
Proof.
  apply (@stored_items_round_trip [guestP1; untitledP3; customerP2] (storeWith None)).
  apply works_storeWith.
Defined.

Lemma isItemStored_after_add_witness :
  isItemStored "p3" None (snd (addStoredItem untitledP3 (storeWith None)))
  = isItemStored "p3" None (storeWith None) || complete untitledP3.
Proof.
  apply (@isItemStored_after_add untitledP3 (storeWith None)).
  apply works_storeWith.
Defined.

Lemma removeStoredItem_stored_witness :
  let ls := storeWith (Some (Text (JArray [recordA; recordB]))) in
  getStoredItems (snd (removeStoredItem "gid://shopify/Product/1" None ls))
  = filter (fun item => negb (storedMatches "gid://shopify/Product/1" None item))
           (getStoredItems ls)
  /\ isItemStored "gid://shopify/Product/1" None
       (snd (removeStoredItem "gid://shopify/Product/1" None ls)) = false.
Proof.
  intros ls. apply (@removeStoredItem_stored "gid://shopify/Product/1" None ls).
  reflexivity.
Defined.

Lemma add_then_remove_stored_witness :
  let ls := storeWith (Some (Text (JArray [recordA; recordB]))) in
  getStoredItems
    (snd (removeStoredItem (productId guestP1) (read (variantId guestP1))
            (snd (addStoredItem guestP1 ls))))
  = getStoredItems ls.
Proof.
  intros ls. apply (@add_then_remove_stored guestP1 ls); reflexivity.
Defined.

Lemma silent_when_not_writable_witness :
  snd (addStoredItem guestP1 readOnlyStore) = readOnlyStore /\
  snd (removeStoredItem "gid://shopify/Product/1" None readOnlyStore)
  = readOnlyStore /\
  fst (addStoredItem guestP1 readOnlyStore)
  = getStoredItems readOnlyStore ++ [itemJSON guestP1].
Proof.
  destruct (@silent_when_not_writable guestP1 "gid://shopify/Product/1" None
              "2024-01-20T00:00:00Z" readOnlyStore (or_intror eq_refl))
    as (Ha & Hr & _ & Hl & _).
  exact (conj Ha (conj Hr (Hl eq_refl))).
Defined.

Lemma memory_identities_stay_distinct_witness :
  let s := stateWith [customerP1; customerP2] in
  let ls := storeWith None in
  NoDup (map itemIdentity
           (items (fst (add customerConfig productP1 "2024-01-20T00:00:00Z"
                          Rejected (s, ls))))) /\
  NoDup (map itemIdentity (items (fst (remove customerConfig "p2" None Rejected (s, ls))))).
Proof.
  intros s ls.
  destruct (@memory_identities_stay_distinct customerConfig productP1
              "2024-01-20T00:00:00Z" "p2" None Rejected s ls)
    as (Ha & Hr & _).
  - solve_distinct.
  - exact (conj Ha Hr).
Defined.

Lemma customer_leaves_store_witness :
  let w := (stateWith [customerP2], storeWith (Some (Text (JArray [recordA])))) in
  snd (add customerConfig productP1 "2024-01-20T00:00:00Z" failedResponse w) = snd w /\
  snd (remove customerConfig "p2" None failedResponse w) = snd w /\
  snd (toggle customerConfig productP1 "2024-01-20T00:00:00Z" failedResponse w) = snd w /\
  snd (clear customerConfig w) = snd w.
Proof.
  intros w.
  apply (@customer_leaves_store customerConfig productP1 "2024-01-20T00:00:00Z"
           "p2" None failedResponse w).
  reflexivity.
Defined.

Lemma guest_never_calls_witness :
  let w := (stateWith [customerP2], storeWith (Some (Text (JArray [recordA])))) in
  add guestConfig productP1 "2024-01-20T00:00:00Z" Rejected w
  = add guestConfig productP1 "2024-01-20T00:00:00Z" failedResponse w /\
  sync guestConfig Rejected w = w.
Proof.
  intros w.
  destruct (@guest_never_calls guestConfig productP1 "2024-01-20T00:00:00Z"
              "p2" None Rejected failedResponse w eq_refl)
    as (_ & Ha & _ & _ & _ & Hs).
  exact (conj Ha Hs).
Defined.

Lemma add_present_is_noop_witness :
  items (fst (add guestConfig productP1 "2024-01-20T00:00:00Z"
                (Responded 200 (Some mergedResponse))
                (stateWith [guestP1; customerP2], storeWith None)))
  = [guestP1; customerP2].
Proof.
  apply (@add_present_is_noop guestConfig productP1 "2024-01-20T00:00:00Z"
           (Responded 200 (Some mergedResponse))
           (stateWith [guestP1; customerP2]) (storeWith None));
    reflexivity.
Defined.

Lemma toggle_twice_witness :
  items (fst (toggle customerConfig productP1 "2024-01-21T00:00:00Z" Rejected
                (toggle customerConfig productP1 "2024-01-20T00:00:00Z"
                   (Responded 200 (Some mergedResponse))
                   (stateWith [customerP2], storeWith None))))
  = [customerP2].
Proof.
  apply (@toggle_twice customerConfig productP1 "2024-01-20T00:00:00Z"
           "2024-01-21T00:00:00Z" (Responded 200 (Some mergedResponse)) Rejected
           (stateWith [customerP2]) (storeWith None));
    reflexivity.
Defined.

Lemma succeeded_mergedResponse :
  succeeded (Responded 200 (Some mergedResponse)) mergedResponse.
Proof. exists 200%Z. repeat split. Defined.

Lemma sync_succeeded_witness :
  let ls := storeWith (Some (Text (JArray [recordA]))) in
  let w := sync customerConfig (Responded 200 (Some mergedResponse))
             (stateWith [], ls) in
  items (fst w) = [customerP1; customerP2] /\
  snd w = clearStoredItems ls /\
  error (fst w) = None /\
  isSyncing (fst w) = false.
Proof.
  intros ls w.
  apply (@sync_succeeded customerConfig (Responded 200 (Some mergedResponse))
           mergedResponse (stateWith []) ls); try reflexivity.
  apply succeeded_mergedResponse.
Defined.

Lemma loadItems_merged_witness :
  let ls := storeWith (Some (Text (JArray [recordA]))) in
  let w := loadItems customerConfig (Responded 200 (Some mergedResponse))
             (initialState, ls) in
  items (fst w) = [customerP1; customerP2] /\
  getStoredItems (snd w) = [] /\
  getLastSyncTimestamp (snd w) = None /\
  error (fst w) = None /\
  isLoading (fst w) = false /\
  isSyncing (fst w) = false.
Proof.
  intros ls w.
  apply (@loadItems_merged customerConfig (Responded 200 (Some mergedResponse))
           mergedResponse [customerP1; customerP2] initialState ls);
    try reflexivity.
  - discriminate.
  - apply succeeded_mergedResponse.
Defined.

Lemma guest_memory_and_store_witness :
  let w := add guestConfig productP1 "2024-01-20T00:00:00Z" Rejected
             (stateWith [customerP2], storeWith None) in
  isWishlisted (fst w) "p1" None = true /\
  isItemStored "p1" None (snd w) = true.
Proof.
  intros w.
  apply (@guest_memory_and_store guestConfig productP1 "2024-01-20T00:00:00Z"
           Rejected (stateWith [customerP2]) (storeWith None));
    try reflexivity.
  apply works_storeWith.
Defined.

(** * The missing variant and the variant called "default" *)

(** Deduplication drops an item whose key was seen, so it returns fewer
    items than it is given as soon as two of them share a key. *)
Lemma deduplicateLoop_length (items : list WishlistItem) : forall seen : list string,
  (List.length (deduplicateLoop seen items) <= List.length items)%nat.
Proof.
  induction items as [|a rest IH]; intros seen; simpl; [lia|].
  destruct (existsb _ seen); simpl;
    [specialize (IH seen) | specialize (IH (createItemKey a :: seen))]; lia.
Qed.

Lemma deduplicateLoop_seen_shorter (items : list WishlistItem) :
  forall (seen : list string) (y : WishlistItem),
    In y items -> keySeen seen y = true ->
    (List.length (deduplicateLoop seen items) < List.length items)%nat.
Proof.
  induction items as [|a rest IH]; intros seen y Hin Hseen; [destruct Hin|].
  simpl. fold (keySeen seen a). destruct Hin as [->|Hin].
  - rewrite Hseen. pose proof (deduplicateLoop_length rest seen). lia.
  - destruct (keySeen seen a).
    + specialize (IH seen y Hin Hseen). lia.
    + simpl. assert (H : keySeen (createItemKey a :: seen) y = true)
        by (rewrite keySeen_cons, Hseen; apply orb_true_r).
      specialize (IH _ y Hin H). lia.
Qed.

Lemma deduplicateLoop_shorter (items : list WishlistItem) :
  forall (seen : list string) (x y : WishlistItem),
    In x items -> In y items -> x <> y -> createItemKey x = createItemKey y ->
    (List.length (deduplicateLoop seen items) < List.length items)%nat.
Proof.
  induction items as [|a rest IH]; intros seen x y Hx Hy Hne Hk; [destruct Hx|].
  simpl. fold (keySeen seen a).
  destruct (keySeen seen a) eqn:Ea.
  - pose proof (deduplicateLoop_length rest seen). lia.
  - simpl.
    assert (Hdrop : forall z, In z rest -> createItemKey z = createItemKey a ->
              (List.length (deduplicateLoop (createItemKey a :: seen) rest)
               < List.length rest)%nat).
    { intros z Hz Hza. apply deduplicateLoop_seen_shorter with (y := z); [exact Hz|].
      now rewrite keySeen_cons, Hza, String.eqb_refl. }
    destruct Hx as [->|Hx], Hy as [->|Hy].
    + contradiction.
    + specialize (Hdrop y Hy (eq_sym Hk)). lia.
    + specialize (Hdrop x Hx Hk). lia.
    + specialize (IH (createItemKey a :: seen) x y Hx Hy Hne Hk). lia.
Qed.

Lemma deduplicateItems_same_key (x y : WishlistItem) :
  createItemKey x = createItemKey y -> deduplicateItems [x; y] = [x].
Proof.
  intros Hk. unfold deduplicateItems. simpl.
  now rewrite Hk, String.eqb_refl.
Qed.

(** The merge of one guest item and one customer item with the same
    key. *)
Lemma mergeWishlists_pair {rt : Runtime} (x y : WishlistItem) :
  createItemKey x = createItemKey y ->
  mergeWishlists [x] [y] = [entryAfter (Some y) x].
Proof.
  intros Hk. unfold mergeWishlists, mergedMap, setCustomerItem, mergeGuestItem.
  simpl. rewrite Hk, String.eqb_refl. unfold earlier.
  destruct (date_lt _ _); simpl; rewrite ?String.eqb_refl; reflexivity.
Qed.

(** Every key of the two collections has its entry in the map. *)
Lemma mergedMap_entry {rt : Runtime} (A B : list WishlistItem) (z : WishlistItem) :
  In z (A ++ B) ->
  exists e, Map_get (createItemKey z) (mergedMap A B) = Some e.
Proof.
  intros Hz. destruct (Map_get (createItemKey z) (mergedMap A B)) as [e|] eqn:E;
    [eauto|].
  apply Map_get_None_keys in E. exfalso. apply E.
  apply mergedMap_keys. now apply in_map.
Qed.

(** [isWishlisted] and the test of [addStoredItem] ask for the
    [productId] and for the [variantId] as it is, missing or not. *)
Lemma isWishlisted_spec (s : WishlistState) (pid : string) (vid : option string) :
  isWishlisted s pid vid = true
  <-> exists z, In z (items s) /\ productId z = pid /\ read (variantId z) = vid.
Proof.
  unfold isWishlisted. rewrite existsb_exists. split.
  - intros (z & Hz & Hm). apply matches_identity in Hm. injection Hm as Hp Hv.
    eauto.
  - intros (z & Hz & Hp & Hv). exists z. split; [exact Hz|].
    apply matches_identity. unfold itemIdentity. now rewrite Hp, Hv.
Qed.

Lemma storedMatches_spec (pid : string) (vid : option string) (z : WishlistItem) :
  storedMatches pid vid (itemJSON z) = true
  <-> productId z = pid /\ read (variantId z) = vid.
Proof.
  rewrite storedMatches_identity, identity_itemJSON. split.
  - intros [= Hp Hv]. split; [exact Hp|].
    destruct (read (variantId z)), vid; simpl in Hv; congruence.
  - intros [-> ->]. reflexivity.
Qed.

(** C9: an item without [variantId] has the key of its [productId]
    followed by ":default", which is also the key of the item of the same
    product whose [variantId] is the string "default".  [deduplicateItems]
    keeps one item with this key out of any list that holds the two, never
    both of them, and returns fewer items than it was given.
    [mergeWishlists] files one entry under this key for any two
    collections that hold the two between them and returns fewer items
    than it was given; when the key strings name products that entry is
    the one returned item with this key; of the two alone it returns the
    one entry they merge into.  [isWishlisted], the duplicate checks of
    [add] and of [addStoredItem], and the filter of [remove] compare
    [variantId] with [===]: each of the two is found under its own
    [variantId] and not under the other's, is added beside the other, and
    is removed without the other. *)
Theorem default_variant_key_and_membership {rt : Runtime} (x y : WishlistItem) :
  productId x = productId y ->
  read (variantId x) = None ->
  read (variantId y) = Some "default" ->
  createItemKey x = (productId x ++ ":default")%string /\
  createItemKey y = (productId x ++ ":default")%string /\
  (forall items, In x items -> In y items ->
     (exists e, In e (deduplicateItems items)
                /\ createItemKey e = (productId x ++ ":default")%string
                /\ forall e', In e' (deduplicateItems items) ->
                     createItemKey e' = (productId x ++ ":default")%string -> e' = e) /\
     ~ (In x (deduplicateItems items) /\ In y (deduplicateItems items)) /\
     (List.length (deduplicateItems items) < List.length items)%nat) /\
  deduplicateItems [x; y] = [x] /\
  deduplicateItems [y; x] = [y] /\
  (forall guestItems customerItems,
     In x (guestItems ++ customerItems) -> In y (guestItems ++ customerItems) ->
     (exists e, Map_get (productId x ++ ":default")%string
                        (mergedMap guestItems customerItems) = Some e
                /\ In e (mergeWishlists guestItems customerItems)) /\
     (List.length (mergeWishlists guestItems customerItems)
      < List.length (guestItems ++ customerItems))%nat /\
     (keys_name_products (guestItems ++ customerItems) ->
      exists e, In e (mergeWishlists guestItems customerItems)
                /\ createItemKey e = (productId x ++ ":default")%string
                /\ forall e', In e' (mergeWishlists guestItems customerItems) ->
                     createItemKey e' = (productId x ++ ":default")%string -> e' = e)) /\
  (forall guestItems customerItems,
     sole_item (productId x ++ ":default")%string x guestItems ->
     sole_item (productId x ++ ":default")%string y customerItems ->
     Map_get (productId x ++ ":default")%string
             (mergedMap guestItems customerItems)
     = Some (entryAfter (Some y) x)) /\
  (forall guestItems customerItems,
     sole_item (productId x ++ ":default")%string y guestItems ->
     sole_item (productId x ++ ":default")%string x customerItems ->
     Map_get (productId x ++ ":default")%string
             (mergedMap guestItems customerItems)
     = Some (entryAfter (Some x) y)) /\
  mergeWishlists [x] [y] = [entryAfter (Some y) x] /\
  mergeWishlists [y] [x] = [entryAfter (Some x) y] /\
  (forall s, In x (items s) -> isWishlisted s (productId x) None = true) /\
  (forall s, In y (items s) -> isWishlisted s (productId x) (Some "default") = true) /\
  (forall s, items s = [y] -> isWishlisted s (productId x) None = false) /\
  (forall s, items s = [x] -> isWishlisted s (productId x) (Some "default") = false) /\
  (forall config product now fetched s ls,
     id product = productId x -> callFailed fetched = false ->
     (read (pVariantId product) = None ->
        (items s = [y] ->
           items (fst (add config product now fetched (s, ls)))
           = [newItem product now; y]) /\
        (items s = [x] ->
           items (fst (add config product now fetched (s, ls))) = [x])) /\
     (read (pVariantId product) = Some "default" ->
        (items s = [x] ->
           items (fst (add config product now fetched (s, ls)))
           = [newItem product now; x]) /\
        (items s = [y] ->
           items (fst (add config product now fetched (s, ls))) = [y]))) /\
  (forall config fetched s ls, In x (items s) -> In y (items s) ->
     (~ In x (items (fst (remove config (productId x) None fetched (s, ls)))) /\
      In y (items (fst (remove config (productId x) None fetched (s, ls))))) /\
     (In x (items (fst (remove config (productId x) (Some "default") fetched (s, ls)))) /\
      ~ In y (items (fst (remove config (productId x) (Some "default") fetched (s, ls)))))) /\
  (forall ls,
     (getStoredItems ls = [itemJSON y] ->
        fst (addStoredItem x ls) = [itemJSON y; itemJSON x]) /\
     (getStoredItems ls = [itemJSON x] ->
        fst (addStoredItem y ls) = [itemJSON x; itemJSON y])).
Proof.
  intros Hp Hx Hy.
  assert (Hkx : createItemKey x = (productId x ++ ":default")%string)
    by (unfold createItemKey; now rewrite Hx).
  assert (Hky : createItemKey y = (productId x ++ ":default")%string)
    by (unfold createItemKey; now rewrite Hp, Hy).
  assert (Hk : createItemKey x = createItemKey y) by congruence.
  assert (Hne : x <> y) by (intros E; rewrite E, Hy in Hx; discriminate).
  assert (Hxx : matches (productId x) None x = true)
    by (apply matches_identity; unfold itemIdentity; now rewrite Hx).
  assert (Hxy : matches (productId x) None y = false).
  { destruct (matches (productId x) None y) eqn:E; [|reflexivity].
    apply matches_identity in E. injection E as _ E. congruence. }
  assert (Hyy : matches (productId x) (Some "default") y = true)
    by (apply matches_identity; unfold itemIdentity; now rewrite Hp, Hy).
  assert (Hyx : matches (productId x) (Some "default") x = false).
  { destruct (matches (productId x) (Some "default") x) eqn:E; [|reflexivity].
    apply matches_identity in E. injection E as E. congruence. }
  split; [exact Hkx|]. split; [exact Hky|].
  split; [|split; [|split; [|split; [|split; [|split; [|split; [|split]]]]]]].
  - intros items Hix Hiy.
    assert (Hnd : NoDup (map createItemKey (deduplicateItems items)))
      by apply deduplicateLoop_NoDup.
    assert (Hin : In (productId x ++ ":default")%string
                     (map createItemKey (deduplicateItems items))).
    { apply (deduplicateLoop_key_set items [] _). split; [|intros []].
      rewrite <- Hkx. now apply in_map. }
    apply in_map_iff in Hin. destruct Hin as (e & He & Hin).
    assert (Huniq : forall e', In e' (deduplicateItems items) ->
              createItemKey e' = (productId x ++ ":default")%string -> e' = e).
    { intros e' Hin' He'. rewrite <- He in He'. revert Hin Hin' He' Hnd.
      generalize (deduplicateItems items) as l.
      induction l as [|a l IH]; simpl; [tauto|].
      intros Hin Hin' He' Hnd. apply NoDup_cons_iff in Hnd. destruct Hnd as [Ha Hnd].
      destruct Hin as [->|Hin], Hin' as [->|Hin']; auto.
      - exfalso. apply Ha. rewrite <- He'. now apply in_map.
      - exfalso. apply Ha. rewrite He'. now apply in_map. }
    split; [exists e; auto|]. split.
    + intros [Hdx Hdy]. apply Hne.
      rewrite (Huniq x Hdx Hkx). symmetry. now apply Huniq.
    + now apply deduplicateLoop_shorter with (x := x) (y := y).
  - now apply deduplicateItems_same_key.
  - now apply deduplicateItems_same_key.
  - intros guestItems customerItems Hgx Hgy.
    destruct (mergedMap_entry guestItems customerItems x Hgx) as [e He].
    rewrite Hkx in He. split; [|split].
    + exists e. split; [exact He|]. eapply mergedMap_entry_listed; eassumption.
    + rewrite mergeWishlists_as_many.
      now apply deduplicateLoop_shorter with (x := x) (y := y).
    + intros HU. exists e. now apply mergeWishlists_carrier.
  - intros guestItems customerItems Hg Hc. now apply mergedMap_shared_key.
  - intros guestItems customerItems Hg Hc. now apply mergedMap_shared_key.
  - now apply mergeWishlists_pair.
  - now apply mergeWishlists_pair.
  - split; [|split; [|split; [|split; [|split; [|split]]]]].
    + intros s Hs. apply isWishlisted_spec. eauto.
    + intros s Hs. apply isWishlisted_spec. exists y. auto.
    + intros s Hs. unfold isWishlisted. rewrite Hs. simpl. now rewrite Hxy.
    + intros s Hs. unfold isWishlisted. rewrite Hs. simpl. now rewrite Hyx.
    + intros config product now fetched s ls Hid Hok.
      assert (Hadd : items (fst (add config product now fetched (s, ls)))
                = if existsb (matches (id product) (read (pVariantId product))) (items s)
                  then items s else newItem product now :: items s).
      { unfold add.
        destruct (isGuest config && enableGuestWishlist_ config);
          [|destruct (negb (isGuest config) && given (apiKey config));
            [destruct fetched as [|status [result|]]; try discriminate Hok;
             cbn [callFailed] in Hok; rewrite Hok|]];
          cbn [fst items setItems productId variantId newItem];
          now rewrite read_own. }
      rewrite Hadd, Hid. split; intros Hv; rewrite Hv; split; intros Hs;
        rewrite Hs; simpl; now rewrite ?Hxx, ?Hxy, ?Hyy, ?Hyx.
    + intros config fetched s ls Hsx Hsy. rewrite !remove_items.
      rewrite !filter_In, Hxx, Hxy, Hyy, Hyx. simpl. intuition discriminate.
    + intros ls.
      assert (Sxx : storedMatches (productId x) (read (variantId x)) (itemJSON y) = false).
      { destruct (storedMatches _ _ (itemJSON y)) eqn:E; [|reflexivity].
        apply storedMatches_spec in E. destruct E as [_ E]. congruence. }
      assert (Syy : storedMatches (productId y) (read (variantId y)) (itemJSON x) = false).
      { destruct (storedMatches _ _ (itemJSON x)) eqn:E; [|reflexivity].
        apply storedMatches_spec in E. destruct E as [_ E]. congruence. }
      split; intros Hs; unfold addStoredItem; rewrite Hs; simpl;
        now rewrite ?Sxx, ?Syy.
Qed.

Lemma default_variant_key_and_membership_witness :
  createItemKey guestP1 = "p1:default" /\
  createItemKey defaultVariantP1 = "p1:default" /\
  deduplicateItems [guestP1; defaultVariantP1] = [guestP1] /\
  mergeWishlists [guestP1] [defaultVariantP1] = [entryAfter (Some defaultVariantP1) guestP1] /\
  isWishlisted (stateWith [defaultVariantP1]) "p1" (Some "default") = true /\
  isWishlisted (stateWith [defaultVariantP1]) "p1" None = false.
Proof.
  destruct (@default_variant_key_and_membership Reference.runtime
              guestP1 defaultVariantP1 eq_refl eq_refl eq_refl)
    as (Hkx & Hky & _ & Hd & _ & _ & _ & _ & Hm & _ & _ & Hwy & Hwn & _).
  split; [exact Hkx|]. split; [exact Hky|]. split; [exact Hd|].
  split; [exact Hm|].
  split; [apply (Hwy (stateWith [defaultVariantP1])); now left|].
  exact (Hwn (stateWith [defaultVariantP1]) eq_refl).
Defined.
